(** * Spectral-line synthesis engine: selection rules, term values, band
      normalisation and the shared grid of the aggregate spectrum.

    A shallow embedding of [band.py], [terms.py], [energy.py], [sim.py] and
    [simulation.py], followed by the properties established for them. *)

From Stdlib Require Import Floats.
From Stdlib Require Import ZArith List Bool Lia Reals Lra.
From stdpp Require Import base list strings pretty gmap.

Local Open Scope Z_scope.

(** ** Python runtime: exceptions and results *)

(** The exceptions the embedded code can raise.  [IndexError] and [KeyError]
    are the two subclasses of Python's [LookupError]. *)
Inductive exn : Type :=
  | ValueError (msg : string)
  | IndexError
  | KeyError (key : string).

Inductive result (A : Type) : Type :=
  | Ok (a : A)
  | Raise (e : exn).
Arguments Ok {A} a.
Arguments Raise {A} e.

(** Sequencing: an exception raised by the first computation propagates.
    The instances give [result] stdpp's [x ← r; k] notation. *)
#[global] Instance result_ret : MRet result := fun A a => Ok a.
#[global] Instance result_bind : MBind result := fun A B k r =>
  match r with
  | Ok a => k a
  | Raise e => Raise e
  end.

(** [isinstance(e, LookupError)] *)
Definition is_LookupError (e : exn) : bool :=
  match e with
  | IndexError | KeyError _ => true
  | ValueError _ => false
  end.

(** An expression raised: it did not produce a value. *)
Definition raises {A} (r : result A) : Prop := exists e, r = Raise e.

(** [l[i]] on a Python list: indices [0 .. len-1] count from the front,
    [-len .. -1] from the back, anything else raises [IndexError]. *)
Definition py_index {A} (l : list A) (i : Z) : result A :=
  let n := Z.of_nat (length l) in
  let j := if i <? 0 then i + n else i in
  if (0 <=? j) && (j <? n) then
    match l !! Z.to_nat j with
    | Some a => Ok a
    | None => Raise IndexError
    end
  else Raise IndexError.

(** [d[k]] on a Python dict. *)
Definition py_getitem {A} (d : gmap string A) (k : string) : result A :=
  match d !! k with
  | Some a => Ok a
  | None => Raise (KeyError k)
  end.

(** Arithmetic of NumPy's [int64] scalars: results wrap around modulo 2^64. *)
Definition int64_wrap (z : Z) : Z := (z + 2 ^ 63) mod 2 ^ 64 - 2 ^ 63.

Definition int64_sub (a b : Z) : Z := int64_wrap (a - b).

(** ** [band.py]: the enumeration of the allowed lines *)

Module band.

(** [Line(rot_qn_up, rot_qn_lo, branch_idx_up, branch_idx_lo, branch_name,
    band, molecule)]: the quantum numbers of one line.  The two trailing
    constructor arguments are the back references to the band and to its
    molecule, the same for every line of one band. *)
Record Line : Type := mkLine {
  rot_qn_up : Z;
  rot_qn_lo : Z;
  branch_idx_up : Z;
  branch_idx_lo : Z;
  branch_name : string
}.

#[global] Instance Line_eq_dec : EqDecision Line.
Proof. solve_decision. Defined.

(** [range(1, 4)] *)
Definition branch_range : list Z := [1; 2; 3].

(** The body of the inner loop of [get_branch_idx]: what one pair of spin
    indices appends to [lines]. *)
Definition branch_idx_step (rot_qn_up rot_qn_lo : Z)
    (branch_main branch_secondary : string)
    (branch_idx_up branch_idx_lo : Z) : list Line :=
  (if branch_idx_up =? branch_idx_lo
   then [mkLine rot_qn_up rot_qn_lo branch_idx_up branch_idx_lo branch_main]
   else [])
  ++
  (if (branch_idx_up >? branch_idx_lo) && String.eqb branch_secondary "rq"
   then [mkLine rot_qn_up rot_qn_lo branch_idx_up branch_idx_lo branch_secondary]
   else if (branch_idx_up <? branch_idx_lo) && String.eqb branch_secondary "pq"
   then [mkLine rot_qn_up rot_qn_lo branch_idx_up branch_idx_lo branch_secondary]
   else []).

(** The two nested [for] loops, each pair of spin indices appending what
    [branch_idx_step] gives, in the order of the loops. *)
Definition get_branch_idx (rot_qn_up rot_qn_lo : Z) (branch_range : list Z)
    (branch_main branch_secondary : string) : list Line :=
  branch_idx_up ← branch_range;
  branch_idx_lo ← branch_range;
  branch_idx_step rot_qn_up rot_qn_lo branch_main branch_secondary
                  branch_idx_up branch_idx_lo.

Definition get_allowed_branches (rot_qn_up rot_qn_lo : Z) : list Line :=
  let delta_rot_qn := int64_sub rot_qn_up rot_qn_lo in
  if delta_rot_qn =? 1 then
    get_branch_idx rot_qn_up rot_qn_lo branch_range "r" "rq"
  else if delta_rot_qn =? -1 then
    get_branch_idx rot_qn_up rot_qn_lo branch_range "p" "pq"
  else [].

(** [rot_lvls] is [self.sim.rot_lvls], an [int64] array. *)
Definition get_allowed_lines (rot_lvls : list Z) : list Line :=
  rot_qn_up ← rot_lvls;
  rot_qn_lo ← rot_lvls;
  if negb (rot_qn_lo mod 2 =? 0)
  then get_allowed_branches rot_qn_up rot_qn_lo
  else [].

End band.

(** ** Floating-point arithmetic

    The operations the code applies to [float] and [numpy.float64] values.
    The embedded functions are written once over this interface; it is
    instantiated with IEEE binary64 (Rocq's primitive floats, on which the
    functions run) and with the real numbers (the arithmetic the formulas are
    meant in, in which the algebraic properties are established). *)

Class Arith (F : Type) : Type := {
  of_Z : Z -> F;            (** conversion of an [int] operand *)
  fadd : F -> F -> F;
  fsub : F -> F -> F;
  fmul : F -> F -> F;
  fdiv : F -> F -> F;
  fsqrt : F -> F;           (** [numpy.sqrt] *)
  fltb : F -> F -> bool;    (** [a < b] *)
  fleb : F -> F -> bool;    (** [a <= b] *)
  fisnan : F -> bool        (** [numpy.isnan] *)
}.

Declare Scope arith_scope.
Delimit Scope arith_scope with A.
Infix "+" := fadd : arith_scope.
Infix "-" := fsub : arith_scope.
Infix "*" := fmul : arith_scope.
Infix "/" := fdiv : arith_scope.

(** [x ** n] for a literal exponent [n]. *)
Fixpoint fpow `{Arith F} (x : F) (n : nat) : F :=
  match n with
  | O => of_Z 1
  | S O => x
  | S m => fmul x (fpow x m)
  end.

(** Python's [max(a, b)]: the first argument unless the second is greater. *)
Definition py_max `{Arith F} (a b : F) : F := if fltb a b then b else a.

(** Python's [max] over a non-empty iterable; [ValueError] on an empty one. *)
Definition py_max_seq `{Arith F} (l : list F) : result F :=
  match l with
  | [] => Raise (ValueError "max() arg is an empty sequence")
  | x :: xs => Ok (fold_left py_max xs x)
  end.

(** NumPy's [maximum] and [minimum] of two scalars: a NaN propagates. *)
Definition npy_maximum `{Arith F} (a b : F) : F :=
  if fleb b a || fisnan a then a else b.

Definition npy_minimum `{Arith F} (a b : F) : F :=
  if fleb a b || fisnan a then a else b.

(** [numpy.max(a)] and [numpy.min(a)] of a one-dimensional array; a
    zero-size array has no maximum and raises [ValueError]. *)
Definition np_max `{Arith F} (a : list F) : result F :=
  match a with
  | [] => Raise (ValueError "zero-size array to reduction operation maximum which has no identity")
  | x :: xs => Ok (fold_left npy_maximum xs x)
  end.

Definition np_min `{Arith F} (a : list F) : result F :=
  match a with
  | [] => Raise (ValueError "zero-size array to reduction operation minimum which has no identity")
  | x :: xs => Ok (fold_left npy_minimum xs x)
  end.

(** [a == b] on floats. *)
Definition feqb `{Arith F} (a b : F) : bool := fleb a b && fleb b a.

(** [numpy.linspace(start, stop, num)] with the end point included: [num]
    evenly spaced samples [arange(0, num) * step + start], the last one then
    set to [stop] itself when there is more than one. *)
Definition linspace `{Arith F} (start stop : F) (num : Z) : result (list F) :=
  if num <? 0 then Raise (ValueError "Number of samples must be non-negative")
  else
    let div := num - 1 in
    let delta := fsub stop start in
    let scale (i : F) : F :=
      if 0 <? div then
        let step := fdiv delta (of_Z div) in
        if feqb step (of_Z 0) then fmul (fdiv i (of_Z div)) delta
        else fmul i step
      else fmul i delta in
    let y := map (fun i => fadd (scale (of_Z (Z.of_nat i))) start)
                 (seq 0 (Z.to_nat num)) in
    Ok (if 1 <? num then removelast y ++ [stop] else y).

(** The real numbers. *)
#[global] Instance R_arith : Arith R := {|
  of_Z := IZR;
  fadd := Rplus;
  fsub := Rminus;
  fmul := Rmult;
  fdiv := Rdiv;
  fsqrt := R_sqrt.sqrt;
  fltb := fun a b => if Rlt_dec a b then true else false;
  fleb := fun a b => if Rle_dec a b then true else false;
  fisnan := fun _ => false
|}.

(** IEEE 754 binary64.  An [int] operand is rounded to the nearest float. *)
Definition float_of_Z (z : Z) : float :=
  SF2Prim (binary_normalize prec emax z 0 false).

#[global] Instance float_arith : Arith float := {|
  of_Z := float_of_Z;
  fadd := PrimFloat.add;
  fsub := PrimFloat.sub;
  fmul := PrimFloat.mul;
  fdiv := PrimFloat.div;
  fsqrt := PrimFloat.sqrt;
  fltb := PrimFloat.ltb;
  fleb := PrimFloat.leb;
  fisnan := PrimFloat.is_nan
|}.

(** ** [band.py] and [simulation.py]: bands and their line intensities *)

Module simulation.
Section Simulation.
Context {F : Type} `{Arith F}.

(** A band as [Band.__init__] leaves it: the two vibrational quantum
    numbers, the lines of [get_allowed_lines] and the Franck-Condon factor
    read from the molecule's table. *)
Record Band : Type := mkBand {
  vib_qn_up : Z;
  vib_qn_lo : Z;
  lines : list band.Line;
  franck_condon : F
}.

Record Simulation : Type := mkSimulation {
  rot_lvls : list Z;
  vib_bands : list Band;
  max_fc : F
}.

(** [Band.__init__]: the lines, then the Franck-Condon factor
    [self.sim.molecule.fc_data[self.vib_qn_up][self.vib_qn_lo]].  The band
    origin, which the band only hands on to its lines, is not represented. *)
Definition Band_init (rot_lvls : list Z) (fc_data : list (list F))
    (vib_qn_up vib_qn_lo : Z) : result Band :=
  let lines := band.get_allowed_lines rot_lvls in
  row ← py_index fc_data vib_qn_up;
  fc ← py_index row vib_qn_lo;
  Ok (mkBand vib_qn_up vib_qn_lo lines fc).

(** The list comprehension of [Simulation.__init__]: the bands are built in
    order and the first exception ends the construction. *)
Fixpoint build_bands (rot_lvls : list Z) (fc_data : list (list F))
    (band_list : list (Z * Z)) : result (list Band) :=
  match band_list with
  | [] => Ok []
  | vib_band :: rest =>
      b ← Band_init rot_lvls fc_data vib_band.1 vib_band.2;
      bs ← build_bands rot_lvls fc_data rest;
      Ok (b :: bs)
  end.

Definition Simulation_init (rot_lvls : list Z) (fc_data : list (list F))
    (band_list : list (Z * Z)) : result Simulation :=
  vib_bands ← build_bands rot_lvls fc_data band_list;
  max_fc ← py_max_seq (map franck_condon vib_bands);
  Ok (mkSimulation rot_lvls vib_bands max_fc).

(** [Line.intensity(state_up, state_lo, vib_qn_up, vib_qn_lo, band_origin,
    temp)] is computed in [line.py]; within one simulation it is a function
    of the band and of the line. *)
Variable intensity : Band -> band.Line -> F.

(** [Band.intensities_line]: the two in-place array operations divide every
    entry by the maximum and multiply every entry by the one scalar
    [franck_condon / max_fc]. *)
Definition intensities_line (sim : Simulation) (b : Band) : result (list F) :=
  let intensities_line := map (intensity b) (lines b) in
  m ← np_max intensities_line;
  let intensities_line := map (fun x => fdiv x m) intensities_line in
  let scale := fdiv (franck_condon b) (max_fc sim) in
  let intensities_line := map (fun x => fmul x scale) intensities_line in
  Ok intensities_line.

End Simulation.
Arguments Band F : clear implicits.
Arguments Simulation F : clear implicits.
End simulation.

(** ** [terms.py]: vibrational and rotational term values *)

Module terms.
Section Terms.
Context {F : Type} `{Arith F}.
Local Open Scope arith_scope.

Record State : Type := mkState {
  name : string;
  constants : gmap string (list F)
}.

(** [lookup_table[key][v_qn]] *)
Definition constant_at (lookup_table : gmap string (list F)) (key : string)
    (v_qn : Z) : result F :=
  table ← py_getitem lookup_table key;
  py_index table v_qn.

Definition vibrational_term (state : State) (v_qn : Z) : result F :=
  constant_at (constants state) "G" v_qn.

(** [numpy.linalg.eigvals] of a 2x2 matrix given by its rows, unpacked into
    its two eigenvalues. *)
Variable eigvals : (F * F) * (F * F) -> F * F.

(** The four matrix elements of the Hamiltonian, in the order [h11], [h12],
    [h21], [h22], from the constants as they stand when it is built. *)
Definition hamiltonian (b d l g ld gd : F) (x : Z) : (F * F) * (F * F) :=
  let h11 :=
    b * of_Z (x + 2)
    - d * of_Z (x ^ 2 + 8 * x + 4)
    - of_Z 4 / of_Z 3 * l
    - of_Z 2 * g
    - of_Z 4 / of_Z 3 * ld * of_Z (x + 2)
    - of_Z 4 * gd * of_Z (x + 1) in
  let h12 :=
    of_Z (-2) * fsqrt (of_Z x)
    * (b - of_Z 2 * d * of_Z (x + 1) - g / of_Z 2 - of_Z 2 / of_Z 3 * ld
       - gd / of_Z 2 * of_Z (x + 4)) in
  let h21 := h12 in
  let h22 :=
    b * of_Z x - d * of_Z (x ^ 2 + 4 * x) + of_Z 2 / of_Z 3 * l - g
    + of_Z 2 / of_Z 3 * of_Z x * ld - of_Z (3 * x) * gd in
  ((h11, h12), (h21, h22)).

Definition rotational_term (state : State) (v_qn j_qn branch_idx : Z)
    : result F :=
  let lookup_table := constants state in
  b ← constant_at lookup_table "B" v_qn;
  d ← constant_at lookup_table "D" v_qn;
  l ← constant_at lookup_table "lamda" v_qn;
  g ← constant_at lookup_table "gamma" v_qn;
  ld ← constant_at lookup_table "lamda_D" v_qn;
  gd ← constant_at lookup_table "gamma_D" v_qn;
  let '(d, ld, gd) :=
    if String.eqb (name state) "X3Sg-"
    then (d * of_Z (-1), ld * of_Z 2, gd * of_Z 2)
    else (d, ld, gd) in
  let x := (j_qn * (j_qn + 1))%Z in
  let '(f1, f3) := eigvals (hamiltonian b d l g ld gd x) in
  if (branch_idx =? 1)%Z then Ok f1
  else if (branch_idx =? 2)%Z then
    Ok (b * of_Z x - d * of_Z (x ^ 2) + of_Z 2 / of_Z 3 * l - g
        + of_Z 2 / of_Z 3 * of_Z x * ld - of_Z x * gd)
  else if (branch_idx =? 3)%Z then Ok f3
  else Raise (ValueError ("Invalid branch index: " +:+ pretty branch_idx)).

End Terms.
Arguments State F : clear implicits.
End terms.

(** ** [energy.py]: the closed-form rotational term *)

Module energy.
Section Energy.
Context {F : Type} `{Arith F}.
Local Open Scope arith_scope.

(** The two sequences of constants [rotational_term] reads from a state:
    what [state.rotational_terms()] returns and [state.spn_const]. *)
Record State : Type := mkState {
  rotational_terms : list F;
  spn_const : list F
}.

Definition rotational_term (rot_qn : Z) (state : State) (branch_idx : Z)
    : result F :=
  rt0 ← py_index (rotational_terms state) 0;
  rt1 ← py_index (rotational_terms state) 1;
  rt2 ← py_index (rotational_terms state) 2;
  let first_term :=
    rt0 * of_Z rot_qn * of_Z (rot_qn + 1)
    - rt1 * of_Z (rot_qn ^ 2) * of_Z ((rot_qn + 1) ^ 2)
    + rt2 * of_Z (rot_qn ^ 3) * of_Z ((rot_qn + 1) ^ 3) in
  let sqrt_sign := if (rot_qn =? 1)%Z then (-1)%Z else 1%Z in
  if (branch_idx =? 1)%Z then
    sc0 ← py_index (spn_const state) 0;
    sc1 ← py_index (spn_const state) 1;
    Ok (first_term + of_Z (2 * rot_qn + 3) * rt0 + sc0
        - of_Z sqrt_sign
          * fsqrt (of_Z ((2 * rot_qn + 3) ^ 2) * fpow rt0 2 + fpow sc0 2
                   - of_Z 2 * sc0 * rt0)
        + sc1 * of_Z (rot_qn + 1))
  else if (branch_idx =? 2)%Z then Ok first_term
  else
    sc0 ← py_index (spn_const state) 0;
    sc1 ← py_index (spn_const state) 1;
    Ok (first_term - of_Z (2 * rot_qn - 1) * rt0 - sc0
        + of_Z sqrt_sign
          * fsqrt (of_Z ((2 * rot_qn - 1) ^ 2) * fpow rt0 2 + fpow sc0 2
                   - of_Z 2 * sc0 * rt0)
        - sc1 * of_Z rot_qn).

End Energy.
Arguments State F : clear implicits.
End energy.

(** ** [sim.py]: the aggregate spectrum on one shared grid *)

Module sim.
Section Sim.
Context {F : Type} `{Arith F}.
Local Open Scope arith_scope.

(** A line as [all_conv_data] sees it.  [fwhm_instrument is_selected
    inst_broadening_wl] is the method the padding is computed from;
    [fwhm_doppler] is the line's Doppler width, which [all_conv_data] does
    not read. *)
Record Line : Type := mkLine {
  fwhm_instrument : bool -> F -> F;
  fwhm_doppler : F
}.

(** A band as [all_conv_data] sees it: its lines, the array its
    [wavenumbers_line()] returns and its [intensities_conv(fwhm_selections,
    inst_broadening_wl, wavenumbers_conv)] method. *)
Record Band : Type := mkBand {
  lines : list Line;
  wavenumbers_line : list F;
  intensities_conv : gmap string bool -> F -> list F -> list F
}.

Record Sim : Type := mkSim {
  bands : list Band
}.

(** [numpy.concatenate] of a list of one-dimensional arrays. *)
Definition np_concatenate (arrays : list (list F)) : result (list F) :=
  match arrays with
  | [] => Raise (ValueError "need at least one array to concatenate")
  | _ => Ok (concat arrays)
  end.

(** [a += b] on one-dimensional arrays: [b] has the length of [a] or is
    broadcast from length one. *)
Definition np_iadd (a b : list F) : result (list F) :=
  if (length b =? length a)%nat then Ok (zip_with fadd a b)
  else match b with
       | [y] => Ok (map (fun x => x + y) a)
       | _ => Raise (ValueError "operands could not be broadcast together")
       end.

(** The padding on either side of the shared grid. *)
Definition padding (self : Sim) (inst_broadening_wl : F) : result F :=
  band0 ← py_index (bands self) 0;
  line0 ← py_index (lines band0) 0;
  Ok (of_Z 10 * py_max (fwhm_instrument line0 true inst_broadening_wl) (of_Z 2)).

Definition all_conv_data (self : Sim) (fwhm_selections : gmap string bool)
    (inst_broadening_wl : F) (granularity : Z) : result (list F * list F) :=
  wavenumbers_line ← np_concatenate (map wavenumbers_line (bands self));
  padding ← padding self inst_broadening_wl;
  lo ← np_min wavenumbers_line;
  let grid_min := lo - padding in
  hi ← np_max wavenumbers_line;
  let grid_max := hi + padding in
  wavenumbers_conv ← linspace grid_min grid_max granularity;
  let intensities_conv0 := map (fun _ => of_Z 0) wavenumbers_conv in
  intensities_conv ←
    fold_left (fun acc band =>
                 a ← acc;
                 np_iadd a (intensities_conv band fwhm_selections
                              inst_broadening_wl wavenumbers_conv))
              (bands self) (Ok intensities_conv0);
  Ok (wavenumbers_conv, intensities_conv).

End Sim.
Arguments Line F : clear implicits.
Arguments Band F : clear implicits.
Arguments Sim F : clear implicits.
End sim.

(** ** [energy.py]: the band origin *)

Module energy_origin.
Section Origin.
Context {F : Type} `{Arith F}.

(** The electronic state of [energy.py] as [get_band_origin] uses it: the
    values its methods [electronic_term()] and [vibrational_term()]
    return. *)
Record State : Type := mkState {
  electronic_term : F;
  vibrational_term : F
}.

Definition get_band_origin (grnd_state exct_state : State) : F :=
  let elc_energy := fsub (electronic_term exct_state)
                         (electronic_term grnd_state) in
  let vib_energy := fsub (vibrational_term exct_state)
                         (vibrational_term grnd_state) in
  fadd elc_energy vib_energy.

End Origin.
Arguments State F : clear implicits.
End energy_origin.

(** ** [sim.py]: the line data of all bands *)

(** [Sim.all_line_data]: two arrays that start empty and grow by the
    line wavenumbers and by the line intensities of one band after the
    other.  [intensities_line band] is what the band's
    [intensities_line()] returns. *)
Definition all_line_data {F : Type} (intensities_line : sim.Band F -> list F)
    (self : sim.Sim F) : list F * list F :=
  fold_left (fun acc band =>
               (acc.1 ++ sim.wavenumbers_line band,
                acc.2 ++ intensities_line band))
            (sim.bands self) ([], []).

(** ** [gui.py]: the bands of the range spin boxes *)

(** [range(start, stop)] *)
Definition py_range (start stop : Z) : list Z := seqZ start (stop - start).

(** The bands [GUI.add_simulation] generates from the four spin boxes of
    the band ranges; [None] when it warns that a minimum is greater than
    its maximum and returns without simulating. *)
Definition add_simulation_bands (v_up_min v_up_max v_lo_min v_lo_max : Z)
    : option (list (Z * Z)) :=
  if (v_up_min >? v_up_max) || (v_lo_min >? v_lo_max) then None
  else Some
    (if (v_up_min =? v_up_max) && (v_lo_min =? v_lo_max) then
       [(v_up_min, v_lo_min)]
     else if v_up_min =? v_up_max then
       v_lo ← py_range v_lo_min (v_lo_max + 1); [(v_up_min, v_lo)]
     else if v_lo_min =? v_lo_max then
       v_up ← py_range v_up_min (v_up_max + 1); [(v_up, v_lo_min)]
     else
       v_up ← py_range v_up_min (v_up_max + 1);
       v_lo ← py_range v_lo_min (v_lo_max + 1);
       [(v_up, v_lo)]).

(** ** Python floats over the reals

    The partition functions of [sim.py] and the laser pulse of [lif.py]
    divide Python floats, which raises [ZeroDivisionError] on a zero
    divisor, and call [numpy.exp], [numpy.log] and [numpy.sqrt].  They are
    modelled over the real numbers: no rounding and no overflow. *)

Inductive exn_float : Type :=
  | ZeroDivisionError
  | Exn (e : exn).

Inductive fresult (A : Type) : Type :=
  | FOk (a : A)
  | FRaise (e : exn_float).
Arguments FOk {A} a.
Arguments FRaise {A} e.

#[global] Instance fresult_ret : MRet fresult := fun A a => FOk a.
#[global] Instance fresult_bind : MBind fresult := fun A B k r =>
  match r with
  | FOk a => k a
  | FRaise e => FRaise e
  end.

(** A lookup inside code that also divides. *)
Definition lift_result {A} (r : result A) : fresult A :=
  match r with
  | Ok a => FOk a
  | Raise e => FRaise (Exn e)
  end.

(** [a / b] on two Python floats. *)
Definition py_truediv (a b : R) : fresult R :=
  if Req_dec_T b 0 then FRaise ZeroDivisionError else FOk (a / b)%R.

(** ** [sim.py]: the vibrational partition function *)

Module sim_partition.

(** The two directions of a simulation, [simtype.SimType]. *)
Inductive SimType : Type := EMISSION | ABSORPTION.

Section Partition.
Local Open Scope R_scope.

(** [constants.PLANC], [constants.LIGHT] and [constants.BOLTZ] *)
Variables PLANC LIGHT BOLTZ : R.

(** [Sim.get_vib_partition_fn]: the state of the simulation's direction,
    then the sum over the levels of its table ["G"], each term referred to
    the level 0. *)
Definition get_vib_partition_fn (sim_type : SimType)
    (state_up state_lo : terms.State R) (temp_vib : R) : fresult R :=
  let state := match sim_type with
               | EMISSION => state_up
               | ABSORPTION => state_lo
               end in
  table ← lift_result (py_getitem (terms.constants state) "G");
  let v_qn_max := Z.of_nat (length table) in
  fold_left (fun acc v_qn =>
               q_v ← acc;
               g ← lift_result (terms.vibrational_term state v_qn);
               g0 ← lift_result (terms.vibrational_term state 0);
               x ← py_truediv (- (g - g0) * PLANC * LIGHT)
                              (BOLTZ * temp_vib);
               FOk (q_v + exp x))
            (seqZ 0 v_qn_max) (FOk 0).

End Partition.
End sim_partition.

(** ** [lif.py]: the laser pulse *)

Module lif.
Section Lif.
Local Open Scope R_scope.

Record LaserParams : Type := mkLaserParams {
  pulse_center : R;
  pulse_width : R;
  fluence : R
}.

(** [laser_intensity(t, laser_params)] at one time [t]. *)
Definition laser_intensity (t : R) (laser_params : LaserParams)
    : fresult R :=
  a ← py_truediv (fluence laser_params) (pulse_width laser_params);
  let b := a * sqrt (4 * ln 2 / PI) in
  x ← py_truediv (t - pulse_center laser_params) (pulse_width laser_params);
  FOk (b * exp (IZR (-4) * ln 2 * x ^ 2)).

End Lif.
End lif.

(** ** [sim.py]: the electronic partition function and Boltzmann fraction *)

(** A Python dict whose order matters, as the pairs of key and value in
    insertion order; [d[k]] and [d.values()]. *)
Fixpoint odict_getitem {A} (d : list (string * A)) (k : string) : result A :=
  match d with
  | [] => Raise (KeyError k)
  | (k', v) :: d' => if String.eqb k' k then Ok v else odict_getitem d' k
  end.

Definition odict_values {A} (d : list (string * A)) : list A := map snd d.

Module sim_electronic.
Section Electronic.
Local Open Scope R_scope.

(** [constants.PLANC], [constants.LIGHT] and [constants.BOLTZ] *)
Variables PLANC LIGHT BOLTZ : R.

(** [constants.ELECTRONIC_ENERGIES] and [constants.ELECTRONIC_DEGENERACIES]:
    for each molecule name, the energy and the degeneracy of its
    electronic states by state name. *)
Variable ELECTRONIC_ENERGIES : gmap string (list (string * R)).
Variable ELECTRONIC_DEGENERACIES : gmap string (list (string * Z)).

(** [Sim.get_elc_partition_fn] *)
Definition get_elc_partition_fn (molecule_name : string) (temp_elc : R)
    : fresult R :=
  energies_of ← lift_result (py_getitem ELECTRONIC_ENERGIES molecule_name);
  let energies := odict_values energies_of in
  degeneracies_of ←
    lift_result (py_getitem ELECTRONIC_DEGENERACIES molecule_name);
  let degeneracies := odict_values degeneracies_of in
  fold_left (fun acc eg =>
               q_e ← acc;
               x ← py_truediv (- eg.1 * PLANC * LIGHT) (BOLTZ * temp_elc);
               FOk (q_e + IZR eg.2 * exp x))
            (zip energies degeneracies) (FOk 0).

(** [Sim.get_elc_boltz_frac]; [elc_part] is [self.elc_part], which
    [Sim.__init__] sets to the value of [get_elc_partition_fn] before. *)
Definition get_elc_boltz_frac (sim_type : sim_partition.SimType)
    (state_up_name state_lo_name molecule_name : string)
    (temp_elc elc_part : R) : fresult R :=
  let state := match sim_type with
               | sim_partition.EMISSION => state_up_name
               | sim_partition.ABSORPTION => state_lo_name
               end in
  energies_of ← lift_result (py_getitem ELECTRONIC_ENERGIES molecule_name);
  energy ← lift_result (odict_getitem energies_of state);
  degeneracies_of ←
    lift_result (py_getitem ELECTRONIC_DEGENERACIES molecule_name);
  degeneracy ← lift_result (odict_getitem degeneracies_of state);
  x ← py_truediv (- energy * PLANC * LIGHT) (BOLTZ * temp_elc);
  FOk (IZR degeneracy * exp x / elc_part).

End Electronic.
End sim_electronic.

(** * Vocabulary of the properties

    The predicates the properties are stated with and the concrete bands,
    states and simulations they are tried on. *)

(** A rotational quantum number held in an [int64] array. *)
Definition is_rot_qn (n : Z) : Prop := 0 <= n < 2 ^ 63.

(** The lines of a list that carry a given pair of spin indices. *)
Definition lines_with_idx (idx_up idx_lo : Z) (l : list band.Line)
    : list band.Line :=
  List.filter (fun ln => (band.branch_idx_up ln =? idx_up)
                         && (band.branch_idx_lo ln =? idx_lo)) l.

(** The main-branch lines of a list: equal spin indices. *)
Definition main_lines (l : list band.Line) : list band.Line :=
  List.filter (fun ln => band.branch_idx_up ln =? band.branch_idx_lo ln) l.

(** A spin index of [range(1, 4)]. *)
Definition in_branch_range (i : Z) : bool := (1 <=? i) && (i <=? 3).

(** The computation failed with a [LookupError]. *)
Definition raises_LookupError {A} (r : result A) : Prop :=
  exists e, r = Raise e /\ is_LookupError e = true.

(** The term value Cheung's Hamiltonian gives for constants taken as they
    are: the two eigenvalues of the matrix for the spin components 1 and 3,
    the closed form for component 2, an error for any other index. *)
Definition cheung_term `{Arith F} (eigvals : (F * F) * (F * F) -> F * F)
    (b d l g ld gd : F) (j_qn branch_idx : Z) : result F :=
  let x := j_qn * (j_qn + 1) in
  if branch_idx =? 1 then Ok (eigvals (terms.hamiltonian b d l g ld gd x)).1
  else if branch_idx =? 2 then
    Ok (b * of_Z x - d * of_Z (x ^ 2) + of_Z 2 / of_Z 3 * l - g
        + of_Z 2 / of_Z 3 * of_Z x * ld - of_Z x * gd)%A
  else if branch_idx =? 3 then
    Ok (eigvals (terms.hamiltonian b d l g ld gd x)).2
  else Raise (ValueError ("Invalid branch index: " +:+ pretty branch_idx)).

(** A ground state with one tabulated vibrational level, for the examples. *)
Definition X3Sg_example : terms.State R :=
  terms.mkState "X3Sg-"
    (list_to_map [("B", [1.4%R]); ("D", [5%R]); ("lamda", [2%R]);
                  ("gamma", [(-1)%R]); ("lamda_D", [3%R]);
                  ("gamma_D", [7%R])]).

(** The polynomial part of the closed-form rotational term. *)
Definition first_term (b d h : R) (rot_qn : Z) : R :=
  (b * IZR rot_qn * IZR (rot_qn + 1)
   - d * IZR (rot_qn ^ 2) * IZR ((rot_qn + 1) ^ 2)
   + h * IZR (rot_qn ^ 3) * IZR ((rot_qn + 1) ^ 3))%R.

(** The square-root term with the factor [k] of the spin component:
    [2 N + 3] for component 1 and [2 N - 1] for component 3. *)
Definition sqrt_term (k : Z) (b s0 : R) : R :=
  sqrt (IZR (k ^ 2) * (b * b) + s0 * s0 - 2 * s0 * b).



(** A band over the levels 0, 1, 2 in which no line has any intensity. *)
Definition dark_band : simulation.Band float :=
  simulation.mkBand 0 0 (band.get_allowed_lines [0; 1; 2]) 1%float.

Definition dark_sim : simulation.Simulation float :=
  simulation.mkSimulation [0; 1; 2] [dark_band] 1%float.

(** One band of two lines at 50000 and 50010; its first line has a Doppler
    width of one eighth and an instrument width of 200 times the instrument
    broadening it is asked for. *)
Definition wide_slit_line : sim.Line float :=
  sim.mkLine (fun is_selected inst_broadening_wl =>
                if is_selected then (inst_broadening_wl * 200)%float
                else 0%float)
             0.125%float.

Definition wide_slit_band : sim.Band float :=
  sim.mkBand [wide_slit_line; wide_slit_line] [50000; 50010]%float
             (fun _ _ wavenumbers_conv => map (fun _ => 1%float) wavenumbers_conv).

Definition wide_slit_sim : sim.Sim float := sim.mkSim [wide_slit_band].

(** The padding in the specification's words, for comparison with
    [sim.padding]: ten times the greater of the Doppler width of the first
    line of the first band and 2. *)
Definition doppler_padding `{Arith F} (self : sim.Sim F) : result F :=
  band0 ← py_index (sim.bands self) 0;
  line0 ← py_index (sim.lines band0) 0;
  Ok (fmul (of_Z 10) (py_max (sim.fwhm_doppler line0) (of_Z 2))).

(** The selection rules as a test on one line: an odd lower rotational
    quantum number, spin indices in 1..3, and either the upper level one
    above the lower with label r for equal spin indices and rq for a greater
    upper index, or one below it with label p for equal spin indices and pq
    for a smaller upper index. *)
Definition allowed_line (ln : band.Line) : bool :=
  Z.odd (band.rot_qn_lo ln)
  && in_branch_range (band.branch_idx_up ln)
  && in_branch_range (band.branch_idx_lo ln)
  && (((band.rot_qn_up ln - band.rot_qn_lo ln =? 1)
       && (((band.branch_idx_up ln =? band.branch_idx_lo ln)
            && String.eqb (band.branch_name ln) "r")
           || ((band.branch_idx_up ln >? band.branch_idx_lo ln)
               && String.eqb (band.branch_name ln) "rq")))
      || ((band.rot_qn_up ln - band.rot_qn_lo ln =? -1)
          && (((band.branch_idx_up ln =? band.branch_idx_lo ln)
               && String.eqb (band.branch_name ln) "p")
              || ((band.branch_idx_up ln <? band.branch_idx_lo ln)
                  && String.eqb (band.branch_name ln) "pq")))).

(** [numpy.arange(0, n)] *)
Definition arange (n : Z) : list Z := seqZ 0 n.

(** The body of the inner loop of [get_allowed_lines]: what one pair of
    levels contributes. *)
Definition allowed_lines_step (up lo : Z) : list band.Line :=
  if negb (lo mod 2 =? 0) then band.get_allowed_branches up lo else [].

(** The names of the six constants [terms.rotational_term] reads, in the
    order it reads them. *)
Definition rotational_constants : list string :=
  ["B"; "D"; "lamda"; "gamma"; "lamda_D"; "gamma_D"].

(** The entry of the Franck-Condon table a band was built from. *)
Definition band_from_table {F : Type} (rot_lvls : list Z)
    (fc_data : list (list F)) (b : simulation.Band F) : Prop :=
  simulation.lines b = band.get_allowed_lines rot_lvls /\
  exists row, py_index fc_data (simulation.vib_qn_up b) = Ok row /\
              py_index row (simulation.vib_qn_lo b)
              = Ok (simulation.franck_condon b).

(** Two bands over the levels 1 and 2, with Franck-Condon factors 1 and
    one half, and the simulation [Simulation.__init__] builds of them. *)
Definition half_band : simulation.Band R :=
  simulation.mkBand 0 1 (band.get_allowed_lines [1; 2]) (1 / 2)%R.

Definition full_band : simulation.Band R :=
  simulation.mkBand 0 0 (band.get_allowed_lines [1; 2]) 1%R.

Definition two_band_sim : simulation.Simulation R :=
  simulation.mkSimulation [1; 2] [full_band; half_band] 1%R.

(** A band over the levels 0, 1, 2 with Franck-Condon factor one half, in a
    simulation whose greatest Franck-Condon factor is 1, in binary64. *)
Definition lit_band : simulation.Band float :=
  simulation.mkBand 0 1 (band.get_allowed_lines [0; 1; 2]) 0.5%float.

Definition lit_sim : simulation.Simulation float :=
  simulation.mkSimulation [0; 1; 2] [lit_band] 1%float.

(** The raw intensity of a line in the examples: the sum of its upper
    quantum numbers. *)
Definition upper_sum (ln : band.Line) : float :=
  float_of_Z (band.rot_qn_up ln + band.branch_idx_up ln).

(** One band of two lines at 50000 and 50010 over the reals, with an
    instrument width of 200 times the instrument broadening. *)
Definition slit_line : sim.Line R :=
  sim.mkLine (fun is_selected inst_broadening_wl =>
                if is_selected then (inst_broadening_wl * 200)%R else 0%R)
             (1 / 8)%R.

Definition slit_band : sim.Band R :=
  sim.mkBand [slit_line; slit_line] [50000; 50010]%R
             (fun _ _ wavenumbers_conv => map (fun _ => 1%R) wavenumbers_conv).

Definition slit_sim : sim.Sim R := sim.mkSim [slit_band].

(** Every pair of an upper and a lower vibrational quantum number of the
    two ranges, the upper one varying slowest. *)
Definition band_grid (v_up_min v_up_max v_lo_min v_lo_max : Z)
    : list (Z * Z) :=
  v_up ← py_range v_up_min (v_up_max + 1);
  v_lo ← py_range v_lo_min (v_lo_max + 1);
  [(v_up, v_lo)].

(** Two bands in binary64 with three and with two line wavenumbers;
    [line_count_intensities] gives every line of a band the intensity 1. *)
Definition three_line_band : sim.Band float :=
  sim.mkBand [] [50000; 50010; 50020]%float (fun _ _ _ => []).

Definition two_wavenumber_band : sim.Band float :=
  sim.mkBand [] [51000; 51010]%float (fun _ _ _ => []).

Definition line_count_intensities (b : sim.Band float) : list float :=
  map (fun _ => 1%float) (sim.wavenumbers_line b).

(** One pass of the loop of [get_vib_partition_fn]. *)
Definition vib_partition_step (PLANC LIGHT BOLTZ : R) (state : terms.State R)
    (temp_vib : R) (acc : fresult R) (v_qn : Z) : fresult R :=
  q_v ← acc;
  g ← lift_result (terms.vibrational_term state v_qn);
  g0 ← lift_result (terms.vibrational_term state 0);
  x ← py_truediv (- (g - g0) * PLANC * LIGHT) (BOLTZ * temp_vib);
  FOk (q_v + exp x)%R.

(** A pulse of unit fluence, two units wide, centred at 5. *)
Definition unit_pulse : lif.LaserParams := lif.mkLaserParams 5 2 1.

(** The computation failed with a [ValueError]. *)
Definition raises_ValueError {A} (r : result A) : Prop :=
  exists msg, r = Raise (ValueError msg).

(** The statistical weight of one electronic state. *)
Definition elc_weight (PLANC LIGHT BOLTZ temp_elc : R) (eg : R * Z) : R :=
  (IZR eg.2 * exp (- eg.1 * PLANC * LIGHT / (BOLTZ * temp_elc)))%R.

(** One pass of the loop of [get_elc_partition_fn]. *)
Definition elc_partition_step (PLANC LIGHT BOLTZ temp_elc : R)
    (acc : fresult R) (eg : R * Z) : fresult R :=
  q_e ← acc;
  x ← py_truediv (- eg.1 * PLANC * LIGHT) (BOLTZ * temp_elc);
  FOk (q_e + IZR eg.2 * exp x)%R.

(** Two electronic states of a molecule, for the examples: energies 0 and
    49793 with degeneracies 3 and 3, and constants that are all 1. *)
Definition example_energies : gmap string (list (string * R)) :=
  {["O2" := [("X3Sg-", 0%R); ("B3Su-", 49793%R)]]}.

Definition example_degeneracies : gmap string (list (string * Z)) :=
  {["O2" := [("X3Sg-", 3); ("B3Su-", 3)]]}.

(** A rotational quantum number small enough for [energy.rotational_term]:
    every integer the formula forms from it, up to [(rot_qn + 1) ** 3], is
    the same in Python's [int] and in NumPy's [int64] and is converted to a
    float without [OverflowError]. *)
Definition fits_energy_term (rot_qn : Z) : Prop := 0 <= rot_qn < 2 ^ 20.

(** The polynomial part of the closed-form rotational term, in the
    arithmetic and in the order of the code. *)
Definition polynomial_term `{Arith F} (b d h : F) (rot_qn : Z) : F :=
  (b * of_Z rot_qn * of_Z (rot_qn + 1)
   - d * of_Z (rot_qn ^ 2) * of_Z ((rot_qn + 1) ^ 2)
   + h * of_Z (rot_qn ^ 3) * of_Z ((rot_qn + 1) ^ 3))%A.

(** The square root of the closed form with the factor [k] of the spin
    component, in the arithmetic and in the order of the code. *)
Definition root_term `{Arith F} (k : Z) (b s0 : F) : F :=
  fsqrt (of_Z (k ^ 2) * fpow b 2 + fpow s0 2 - of_Z 2 * s0 * b)%A.

(** The rotational constants and spin constants of the examples, in
    binary64. *)
Definition herzberg_state : energy.State float :=
  energy.mkState [1.4375; 0.0000152587890625; 0]%float
    [1.984375; -0.0078125]%float.

(** A float whose square stays in the float range: Python's [x ** 2] on a
    float raises [OverflowError] when the square of a finite [x] does
    not. *)
Definition square_fits (x : float) : bool := (abs x <? 0x1p511)%float.

(** The same bound for a real number. *)
Definition square_fits_R (x : R) : Prop := (Rabs x < 2 ^ 511)%R.

(** A rotational quantum number small enough for [terms.rotational_term]:
    every integer the Hamiltonian forms from [x = j_qn * (j_qn + 1)], up to
    [x ** 2 + 8 * x + 4], is the same in Python's [int] and in NumPy's
    [int64] and is converted to a float without [OverflowError]. *)
Definition fits_cheung_term (j_qn : Z) : Prop := 0 <= j_qn < 2 ^ 15.

(** * Properties *)

(** ** The selection rules of [band.py] *)

Lemma int64_wrap_small (z : Z) :
  - 2 ^ 63 <= z < 2 ^ 63 -> int64_wrap z = z.
Proof.
  intros Hz. unfold int64_wrap.
  rewrite Z.mod_small by lia. lia.
Qed.

Lemma int64_sub_rot_qn (a b : Z) :
  is_rot_qn a -> is_rot_qn b -> int64_sub a b = a - b.
Proof.
  unfold is_rot_qn, int64_sub. intros Ha Hb.
  apply int64_wrap_small. lia.
Qed.

(** The six lines of the R family, in the order of the loops. *)
Lemma get_branch_idx_r (up lo : Z) :
  band.get_branch_idx up lo band.branch_range "r" "rq" =
    [ band.mkLine up lo 1 1 "r";
      band.mkLine up lo 2 1 "rq"; band.mkLine up lo 2 2 "r";
      band.mkLine up lo 3 1 "rq"; band.mkLine up lo 3 2 "rq";
      band.mkLine up lo 3 3 "r" ].
Proof. reflexivity. Qed.

(** The six lines of the P family, in the order of the loops. *)
Lemma get_branch_idx_p (up lo : Z) :
  band.get_branch_idx up lo band.branch_range "p" "pq" =
    [ band.mkLine up lo 1 1 "p"; band.mkLine up lo 1 2 "pq";
      band.mkLine up lo 1 3 "pq";
      band.mkLine up lo 2 2 "p"; band.mkLine up lo 2 3 "pq";
      band.mkLine up lo 3 3 "p" ].
Proof. reflexivity. Qed.

(** Every line of one call of [get_allowed_branches] carries the two
    rotational quantum numbers of the call and a label of the family the
    (wrapped) difference selects. *)
Lemma elem_of_get_allowed_branches (up lo : Z) (ln : band.Line) :
  ln ∈ band.get_allowed_branches up lo ->
  band.rot_qn_up ln = up /\ band.rot_qn_lo ln = lo /\
  ((int64_sub up lo = 1 /\
    (band.branch_name ln = "r" \/ band.branch_name ln = "rq")) \/
   (int64_sub up lo = -1 /\
    (band.branch_name ln = "p" \/ band.branch_name ln = "pq"))).
Proof.
  unfold band.get_allowed_branches.
  destruct (Z.eqb_spec (int64_sub up lo) 1) as [Hr|Hr].
  - rewrite get_branch_idx_r, !elem_of_cons, elem_of_nil.
    intros Hin. decompose [or] Hin; subst; simpl; tauto.
  - destruct (Z.eqb_spec (int64_sub up lo) (-1)) as [Hp|Hp].
    + rewrite get_branch_idx_p, !elem_of_cons, elem_of_nil.
      intros Hin. decompose [or] Hin; subst; simpl; tauto.
    + intros Hin. apply elem_of_nil in Hin. contradiction.
Qed.

(** Membership in the enumeration, loop by loop. *)
Lemma elem_of_get_allowed_lines (rot_lvls : list Z) (ln : band.Line) :
  ln ∈ band.get_allowed_lines rot_lvls <->
  exists up lo, up ∈ rot_lvls /\ lo ∈ rot_lvls /\ lo mod 2 <> 0 /\
                ln ∈ band.get_allowed_branches up lo.
Proof.
  unfold band.get_allowed_lines. rewrite list_elem_of_bind. split.
  - intros (up & Hin & Hup). apply list_elem_of_bind in Hin.
    destruct Hin as (lo & Hin & Hlo).
    destruct (Z.eqb_spec (lo mod 2) 0) as [He|Hne]; simpl in Hin.
    + apply elem_of_nil in Hin. contradiction.
    + eauto 10.
  - intros (up & lo & Hup & Hlo & Hodd & Hin).
    exists up. split; [|assumption].
    apply list_elem_of_bind. exists lo. split; [|assumption].
    destruct (Z.eqb_spec (lo mod 2) 0); [contradiction | exact Hin].
Qed.

(** No line is emitted twice by one call of [get_allowed_branches]. *)
Lemma NoDup_get_allowed_branches (up lo : Z) :
  NoDup (band.get_allowed_branches up lo).
Proof.
  unfold band.get_allowed_branches.
  destruct (int64_sub up lo =? 1);
    [rewrite get_branch_idx_r | destruct (int64_sub up lo =? -1);
      [rewrite get_branch_idx_p | constructor]].
  all: repeat (apply NoDup_cons; split;
         [rewrite ?elem_of_cons, elem_of_nil; intros Hin;
          decompose [or] Hin; congruence |]).
  all: constructor.
Qed.

(** C1: whatever levels are requested, every line of the enumeration has
    an odd lower rotational quantum number and a difference
    [rot_qn_up - rot_qn_lo] of +1 or -1, never 0; a difference of +1 is
    labelled in the R family (r or rq), a difference of -1 in the P family
    (p or pq); both quantum numbers are requested levels. *)
Theorem C1_selection_rule_closure (rot_lvls : list Z) (ln : band.Line) :
  Forall is_rot_qn rot_lvls ->
  ln ∈ band.get_allowed_lines rot_lvls ->
  band.rot_qn_up ln ∈ rot_lvls /\ band.rot_qn_lo ln ∈ rot_lvls /\
  Z.odd (band.rot_qn_lo ln) = true /\
  band.rot_qn_up ln - band.rot_qn_lo ln <> 0 /\
  ((band.rot_qn_up ln - band.rot_qn_lo ln = 1 /\
    (band.branch_name ln = "r" \/ band.branch_name ln = "rq")) \/
   (band.rot_qn_up ln - band.rot_qn_lo ln = -1 /\
    (band.branch_name ln = "p" \/ band.branch_name ln = "pq"))).
Proof.
  intros Hlvls Hin.
  apply elem_of_get_allowed_lines in Hin.
  destruct Hin as (up & lo & Hup & Hlo & Hodd & Hin).
  apply elem_of_get_allowed_branches in Hin.
  destruct Hin as (-> & -> & Hfam).
  rewrite Forall_forall in Hlvls.
  rewrite int64_sub_rot_qn in Hfam by auto.
  split; [assumption|]. split; [assumption|]. split.
  - rewrite Zmod_odd in Hodd.
    destruct (Z.odd lo); [reflexivity | contradiction].
  - split; [lia | exact Hfam].
Qed.

(** C1 at the levels 0, 1, 2 and the line R1 from level 1 to level 2. *)
Lemma C1_selection_rule_closure_witness :
  band.rot_qn_up (band.mkLine 2 1 1 1 "r") ∈ [0; 1; 2] /\
  band.rot_qn_lo (band.mkLine 2 1 1 1 "r") ∈ [0; 1; 2] /\
  Z.odd (band.rot_qn_lo (band.mkLine 2 1 1 1 "r")) = true /\
  band.rot_qn_up (band.mkLine 2 1 1 1 "r")
    - band.rot_qn_lo (band.mkLine 2 1 1 1 "r") <> 0 /\
  ((band.rot_qn_up (band.mkLine 2 1 1 1 "r")
      - band.rot_qn_lo (band.mkLine 2 1 1 1 "r") = 1 /\
    (band.branch_name (band.mkLine 2 1 1 1 "r") = "r" \/
     band.branch_name (band.mkLine 2 1 1 1 "r") = "rq")) \/
   (band.rot_qn_up (band.mkLine 2 1 1 1 "r")
      - band.rot_qn_lo (band.mkLine 2 1 1 1 "r") = -1 /\
    (band.branch_name (band.mkLine 2 1 1 1 "r") = "p" \/
     band.branch_name (band.mkLine 2 1 1 1 "r") = "pq"))).
Proof.
  apply (C1_selection_rule_closure [0; 1; 2] (band.mkLine 2 1 1 1 "r")).
  - repeat constructor; unfold is_rot_qn; lia.
  - vm_compute. repeat constructor.
Defined.

Lemma in_branch_range_cases (i : Z) :
  i = 1 \/ i = 2 \/ i = 3 \/
  (in_branch_range i = false /\ i <> 1 /\ i <> 2 /\ i <> 3).
Proof. unfold in_branch_range. lia. Qed.

Ltac split_idx i :=
  destruct (in_branch_range_cases i) as [->|[->|[->|(? & ? & ? & ?)]]].

Ltac out_of_range :=
  repeat match goal with
    | H : in_branch_range ?i = false |- context [in_branch_range ?i] =>
        rewrite H, ?andb_false_r
    end.

Ltac kill_eqb :=
  repeat match goal with
    | Hne : ?i <> ?c |- context [?c =? ?i] =>
        rewrite (proj2 (Z.eqb_neq c i)) by lia
    end.

(** C2: in the branch expansion of one rotational pair, each equal pair of
    spin indices 1..3 yields exactly one line, a main-branch one; an unequal
    pair yields exactly one satellite line when it is in the R family with
    the upper index greater than the lower, or in the P family with the
    upper index less than the lower, and no line otherwise; indices outside
    1..3 yield none. *)
Theorem C2_branch_expansion (up lo idx_up idx_lo : Z) :
  lines_with_idx idx_up idx_lo
      (band.get_branch_idx up lo band.branch_range "r" "rq") =
    (if in_branch_range idx_up && in_branch_range idx_lo then
       if idx_up =? idx_lo then [band.mkLine up lo idx_up idx_lo "r"]
       else if idx_up >? idx_lo then [band.mkLine up lo idx_up idx_lo "rq"]
       else []
     else [])
  /\
  lines_with_idx idx_up idx_lo
      (band.get_branch_idx up lo band.branch_range "p" "pq") =
    (if in_branch_range idx_up && in_branch_range idx_lo then
       if idx_up =? idx_lo then [band.mkLine up lo idx_up idx_lo "p"]
       else if idx_up <? idx_lo then [band.mkLine up lo idx_up idx_lo "pq"]
       else []
     else []).
Proof.
  rewrite get_branch_idx_r, get_branch_idx_p.
  unfold lines_with_idx.
  split_idx idx_up; split_idx idx_lo;
    cbn -[Z.eqb Z.gtb Z.ltb in_branch_range];
    kill_eqb; out_of_range; split; reflexivity.
Qed.

(** The lines one pass of the inner loop of [get_allowed_lines] emits for a
    fixed upper level all carry that upper level. *)
Lemma elem_of_inner_loop (rot_lvls : list Z) (up : Z) (ln : band.Line) :
  ln ∈ (lo ← rot_lvls;
        if negb (lo mod 2 =? 0) then band.get_allowed_branches up lo else [])
  -> band.rot_qn_up ln = up /\ band.rot_qn_lo ln ∈ rot_lvls.
Proof.
  intros (lo & Hin & Hlo)%list_elem_of_bind.
  destruct (negb (lo mod 2 =? 0)).
  - apply elem_of_get_allowed_branches in Hin.
    destruct Hin as (Hu & Hl & _). rewrite Hl. auto.
  - apply elem_of_nil in Hin. contradiction.
Qed.

(** C5: over levels requested without repetition, the enumeration never
    emits two lines with the same upper and lower rotational quantum
    numbers, the same upper and lower spin indices and the same label. *)
Theorem C5_no_duplicate_lines (rot_lvls : list Z) :
  NoDup rot_lvls -> NoDup (band.get_allowed_lines rot_lvls).
Proof.
  intros Hnd. unfold band.get_allowed_lines.
  apply NoDup_bind; [| | assumption].
  - intros up1 up2 ln _ _ H1 H2.
    apply elem_of_inner_loop in H1, H2.
    destruct H1 as [H1 _], H2 as [H2 _]. congruence.
  - intros up _. apply NoDup_bind; [| | assumption].
    + intros lo1 lo2 ln _ _ H1 H2.
      destruct (negb (lo1 mod 2 =? 0)); [|by apply elem_of_nil in H1].
      destruct (negb (lo2 mod 2 =? 0)); [|by apply elem_of_nil in H2].
      apply elem_of_get_allowed_branches in H1, H2.
      destruct H1 as (_ & H1 & _), H2 as (_ & H2 & _). congruence.
    + intros lo _. destruct (negb (lo mod 2 =? 0)).
      * apply NoDup_get_allowed_branches.
      * constructor.
Qed.

(** C5 at the levels 0, 1, 2, 3. *)
Lemma C5_no_duplicate_lines_witness :
  NoDup (band.get_allowed_lines [0; 1; 2; 3]).
Proof.
  apply (C5_no_duplicate_lines [0; 1; 2; 3]).
  apply (bool_decide_unpack _). vm_compute. exact I.
Defined.

(** C10, as stated, fails: from the two levels 1 and 3 the enumeration
    emits no line, so it does not emit nine main lines. *)
Lemma C10_levels_1_3_counterexample :
  length (main_lines (band.get_allowed_lines [1; 3])) <> 9%nat.
Proof. vm_compute. discriminate. Qed.

(** C10, amended: the two levels 1 and 3 give no line at all, since no two
    of them differ by one; the three levels 1, 2, 3 give one R-branch and
    one P-branch main line per spin index, six main lines; the nine main
    lines come from the four levels 0..3, which give per spin index one
    R-branch main line (2 from 1) and two P-branch main lines (0 from 1 and
    2 from 3). *)
Theorem C10_end_to_end_main_lines :
  band.get_allowed_lines [1; 3] = [] /\
  main_lines (band.get_allowed_lines [1; 2; 3]) =
    [ band.mkLine 2 1 1 1 "r"; band.mkLine 2 1 2 2 "r";
      band.mkLine 2 1 3 3 "r";
      band.mkLine 2 3 1 1 "p"; band.mkLine 2 3 2 2 "p";
      band.mkLine 2 3 3 3 "p" ] /\
  main_lines (band.get_allowed_lines [0; 1; 2; 3]) =
    [ band.mkLine 0 1 1 1 "p"; band.mkLine 0 1 2 2 "p";
      band.mkLine 0 1 3 3 "p";
      band.mkLine 2 1 1 1 "r"; band.mkLine 2 1 2 2 "r";
      band.mkLine 2 1 3 3 "r";
      band.mkLine 2 3 1 1 "p"; band.mkLine 2 3 2 2 "p";
      band.mkLine 2 3 3 3 "p" ].
Proof. repeat split; vm_compute; reflexivity. Qed.

(** ** Table lookups of [terms.py] *)

Section Lookup.
Context {A : Type}.
Implicit Types (l : list A) (i : Z).

(** An index inside the list returns the entry at that position. *)
Lemma py_index_in_range l i x :
  0 <= i < Z.of_nat (length l) -> l !! Z.to_nat i = Some x ->
  py_index l i = Ok x.
Proof.
  intros Hi Hx. unfold py_index.
  destruct (Z.ltb_spec i 0); [lia|].
  destruct (Z.leb_spec 0 i); [|lia].
  destruct (Z.ltb_spec i (Z.of_nat (length l))); [|lia].
  simpl. rewrite Hx. reflexivity.
Qed.

(** An index inside the list always finds an entry. *)
Lemma py_index_in_range_total l i :
  0 <= i < Z.of_nat (length l) -> exists x, py_index l i = Ok x.
Proof.
  intros Hi.
  destruct (lookup_lt_is_Some_2 l (Z.to_nat i)) as [x Hx]; [lia|].
  exists x. by apply py_index_in_range.
Qed.

(** An index at or past the end raises [IndexError]. *)
Lemma py_index_past_end l i :
  Z.of_nat (length l) <= i -> py_index l i = Raise IndexError.
Proof.
  intros Hi. unfold py_index.
  destruct (Z.ltb_spec i 0); [lia|].
  destruct (Z.ltb_spec i (Z.of_nat (length l))); [lia|].
  by rewrite andb_false_r.
Qed.

(** The first three entries of a list, by their indices. *)
Lemma py_index_0 x l : py_index (x :: l) 0 = Ok x.
Proof. apply py_index_in_range; [simpl length; lia | reflexivity]. Qed.

Lemma py_index_1 x y l : py_index (x :: y :: l) 1 = Ok y.
Proof. apply py_index_in_range; [simpl length; lia | reflexivity]. Qed.

Lemma py_index_2 x y z l : py_index (x :: y :: z :: l) 2 = Ok z.
Proof. apply py_index_in_range; [simpl length; lia | reflexivity]. Qed.

End Lookup.

(** C9: for a state whose table of vibrational terms is [g] and a
    vibrational quantum number [v_qn] (which is not negative), the lookup
    returns the entry tabulated at [v_qn] when [v_qn] is inside the table,
    and fails with a [LookupError] (an [IndexError]) when it is past the
    end of the table. *)
Theorem C9_vibrational_term_lookup {F : Type} (state : terms.State F)
    (g : list F) (v_qn : Z) :
  terms.constants state !! "G" = Some g ->
  0 <= v_qn ->
  if v_qn <? Z.of_nat (length g)
  then exists x, g !! Z.to_nat v_qn = Some x /\
                 terms.vibrational_term state v_qn = Ok x
  else raises_LookupError (terms.vibrational_term state v_qn).
Proof.
  intros Hg Hv.
  unfold terms.vibrational_term, terms.constant_at, py_getitem.
  rewrite Hg. simpl.
  destruct (Z.ltb_spec v_qn (Z.of_nat (length g))) as [Hlt|Hge].
  - destruct (lookup_lt_is_Some_2 g (Z.to_nat v_qn)) as [x Hx]; [lia|].
    exists x. split; [assumption|]. by apply py_index_in_range.
  - exists IndexError. split; [|reflexivity].
    by apply py_index_past_end.
Qed.

(** C9 on a table of three vibrational terms, read at its last entry. *)
Lemma C9_vibrational_term_lookup_witness :
  if 2 <? Z.of_nat (length [787; 2344; 3877])
  then exists x, [787; 2344; 3877] !! Z.to_nat 2 = Some x /\
                 terms.vibrational_term
                   (terms.mkState "X3Sg-" {["G" := [787; 2344; 3877]]}) 2
                 = Ok x
  else raises_LookupError
         (terms.vibrational_term
            (terms.mkState "X3Sg-" {["G" := [787; 2344; 3877]]}) 2).
Proof.
  apply (C9_vibrational_term_lookup
           (terms.mkState "X3Sg-" {["G" := [787; 2344; 3877]]})
           [787; 2344; 3877] 2).
  - reflexivity.
  - lia.
Defined.

(** The same table read one past its end: the lookup raises. *)
Example vibrational_term_past_end :
  terms.vibrational_term
    (terms.mkState "X3Sg-" {["G" := [787; 2344; 3877]]}) 3
  = Raise IndexError.
Proof. reflexivity. Qed.

(** A state with no table of vibrational terms: the lookup raises
    [KeyError], the other [LookupError]. *)
Example vibrational_term_no_table :
  terms.vibrational_term (terms.mkState (F:=Z) "X3Sg-" ∅) 0
  = Raise (KeyError "G").
Proof. reflexivity. Qed.

(** ** The Hamiltonian convention of [terms.rotational_term] *)

(** C6: with the six constants of the vibrational level read from the
    state's tables, the rotational term of the state named X3Sg- is the one
    Cheung's Hamiltonian gives for [D] times -1, [lamda_D] times 2 and
    [gamma_D] times 2 (the other three constants as tabulated), and the
    rotational term of any other state is the one it gives for the six
    constants as tabulated; in either arithmetic, for every eigenvalue
    routine and every branch index. *)
Theorem C6_hamiltonian_convention `{Arith F}
    (eigvals : (F * F) * (F * F) -> F * F)
    (state : terms.State F) (v_qn j_qn branch_idx : Z) (b d l g ld gd : F) :
  terms.constant_at (terms.constants state) "B" v_qn = Ok b ->
  terms.constant_at (terms.constants state) "D" v_qn = Ok d ->
  terms.constant_at (terms.constants state) "lamda" v_qn = Ok l ->
  terms.constant_at (terms.constants state) "gamma" v_qn = Ok g ->
  terms.constant_at (terms.constants state) "lamda_D" v_qn = Ok ld ->
  terms.constant_at (terms.constants state) "gamma_D" v_qn = Ok gd ->
  terms.rotational_term eigvals state v_qn j_qn branch_idx =
    if bool_decide (terms.name state = "X3Sg-")
    then cheung_term eigvals b (fmul d (of_Z (-1))) l g
                     (fmul ld (of_Z 2)) (fmul gd (of_Z 2)) j_qn branch_idx
    else cheung_term eigvals b d l g ld gd j_qn branch_idx.
Proof.
  intros Hb Hd Hl Hg Hld Hgd.
  unfold terms.rotational_term, cheung_term.
  rewrite Hb, Hd, Hl, Hg, Hld, Hgd. cbn [mbind result_bind].
  destruct (String.eqb_spec (terms.name state) "X3Sg-") as [Hn|Hn].
  - rewrite bool_decide_eq_true_2 by assumption.
    destruct (eigvals _) as [f1 f3].
    repeat (destruct (_ =? _); [reflexivity|]). reflexivity.
  - rewrite bool_decide_eq_false_2 by assumption.
    destruct (eigvals _) as [f1 f3].
    repeat (destruct (_ =? _); [reflexivity|]). reflexivity.
Qed.

(** Over the reals the two adjusted matrices differ as the table in
    [terms.py] says: [D] negated, [lamda_D] and [gamma_D] doubled. *)
Lemma cheung_term_X3Sg_R (eigvals : (R * R) * (R * R) -> R * R)
    (b d l g ld gd : R) (j_qn branch_idx : Z) :
  cheung_term eigvals b (fmul d (of_Z (-1))) l g
              (fmul ld (of_Z 2)) (fmul gd (of_Z 2)) j_qn branch_idx
  = cheung_term eigvals b (- d)%R l g (2 * ld)%R (2 * gd)%R j_qn branch_idx.
Proof.
  cbn [fmul of_Z R_arith].
  replace (d * -1)%R with (- d)%R by ring.
  replace (ld * 2)%R with (2 * ld)%R by ring.
  replace (gd * 2)%R with (2 * gd)%R by ring.
  reflexivity.
Qed.

(** C6 at the state above, with the diagonal of the matrix standing for
    its eigenvalues. *)
Lemma C6_hamiltonian_convention_witness :
  terms.rotational_term (fun m => (m.1.1, m.2.2)) X3Sg_example 0 1 2 =
    if bool_decide (terms.name X3Sg_example = "X3Sg-")
    then cheung_term (fun m => (m.1.1, m.2.2))
           1.4%R (fmul 5%R (of_Z (-1))) 2%R (-1)%R
           (fmul 3%R (of_Z 2)) (fmul 7%R (of_Z 2)) 1 2
    else cheung_term (fun m => (m.1.1, m.2.2))
           1.4%R 5%R 2%R (-1)%R 3%R 7%R 1 2.
Proof.
  apply (C6_hamiltonian_convention (fun m => (m.1.1, m.2.2))
           X3Sg_example 0 1 2 1.4%R 5%R 2%R (-1)%R 3%R 7%R); reflexivity.
Defined.

(** ** The sign of the square root in [energy.rotational_term] *)

(** Over the reals, for a state with rotational constants [b], [d], [h]
    and spin constants [s0], [s1], the square root is subtracted in
    component 1 and added in component 3 for every rotational quantum
    number other than 1; at rotational quantum number 1 the two signs are
    exchanged; component 2 is the polynomial alone. *)
Lemma square_root_sign_R (rot_qn : Z) (b d h s0 s1 : R)
    (rt_rest sc_rest : list R) :
  energy.rotational_term rot_qn
    (energy.mkState (b :: d :: h :: rt_rest) (s0 :: s1 :: sc_rest)) 1 =
    Ok (if rot_qn =? 1
        then first_term b d h rot_qn + IZR (2 * rot_qn + 3) * b + s0
             + sqrt_term (2 * rot_qn + 3) b s0 + s1 * IZR (rot_qn + 1)
        else first_term b d h rot_qn + IZR (2 * rot_qn + 3) * b + s0
             - sqrt_term (2 * rot_qn + 3) b s0 + s1 * IZR (rot_qn + 1))%R
  /\
  energy.rotational_term rot_qn
    (energy.mkState (b :: d :: h :: rt_rest) (s0 :: s1 :: sc_rest)) 2 =
    Ok (first_term b d h rot_qn)
  /\
  energy.rotational_term rot_qn
    (energy.mkState (b :: d :: h :: rt_rest) (s0 :: s1 :: sc_rest)) 3 =
    Ok (if rot_qn =? 1
        then first_term b d h rot_qn - IZR (2 * rot_qn - 1) * b - s0
             - sqrt_term (2 * rot_qn - 1) b s0 - s1 * IZR rot_qn
        else first_term b d h rot_qn - IZR (2 * rot_qn - 1) * b - s0
             + sqrt_term (2 * rot_qn - 1) b s0 - s1 * IZR rot_qn)%R.
Proof.
  unfold energy.rotational_term, first_term, sqrt_term.
  cbn [energy.rotational_terms energy.spn_const].
  rewrite !py_index_0, !py_index_1, !py_index_2.
  cbn -[Z.pow Z.mul Z.add Z.sub Z.eqb IZR].
  repeat split; destruct (rot_qn =? 1); f_equal; ring.
Qed.

(** ** The normalisation of [Band.intensities_line] *)

Section RealMaximum.
Local Open Scope R_scope.
Implicit Types (x y m : R) (xs : list R).

Lemma npy_maximum_R x y :
  npy_maximum x y = if Rle_dec y x then x else y.
Proof.
  unfold npy_maximum. cbn [fleb fisnan R_arith].
  destruct (Rle_dec y x); reflexivity.
Qed.

(** The running maximum is one of the values seen and bounds them all. *)
Lemma fold_npy_maximum_R xs x :
  (fold_left npy_maximum xs x = x \/ fold_left npy_maximum xs x ∈ xs) /\
  x <= fold_left npy_maximum xs x /\
  (forall y, y ∈ xs -> y <= fold_left npy_maximum xs x).
Proof.
  revert x. induction xs as [|z xs IH]; intros x; cbn [fold_left].
  - split; [by left|]. split; [lra|]. intros y Hy. by apply elem_of_nil in Hy.
  - destruct (IH (npy_maximum x z)) as (Hin & Hle & Hub).
    rewrite npy_maximum_R in Hin, Hle, Hub |- *.
    split; [|split].
    + destruct Hin as [Hin|Hin]; [|right; by right].
      rewrite Hin.
      destruct (Rle_dec z x); [by left | right; by left].
    + destruct (Rle_dec z x); lra.
    + intros y [->|Hy]%elem_of_cons; [|by apply Hub].
      destruct (Rle_dec z x); lra.
Qed.

(** [numpy.max] of a non-empty array of reals is the greatest entry. *)
Lemma np_max_R_spec xs m :
  np_max xs = Ok m -> m ∈ xs /\ forall y, y ∈ xs -> y <= m.
Proof.
  destruct xs as [|x xs]; [discriminate|]. cbn [np_max].
  intros [= <-]. destruct (fold_npy_maximum_R xs x) as (Hin & Hle & Hub).
  split.
  - destruct Hin as [->|Hin]; [by left | by right].
  - intros y [->|Hy]%elem_of_cons; auto.
Qed.

(** A non-decreasing map commutes with the running maximum. *)
Lemma fold_npy_maximum_R_mono (f : R -> R) xs x :
  (forall a b, a <= b -> f a <= f b) ->
  fold_left npy_maximum (map f xs) (f x) = f (fold_left npy_maximum xs x).
Proof.
  intros Hf. revert x. induction xs as [|z xs IH]; intros x; [reflexivity|].
  cbn [map fold_left]. rewrite <- IH. f_equal.
  rewrite !npy_maximum_R.
  destruct (Rle_dec z x) as [Hzx|Hzx], (Rle_dec (f z) (f x)) as [Hf'|Hf'];
    try reflexivity.
  - exfalso. apply Hf'. by apply Hf.
  - apply Rle_antisym; [|assumption]. apply Hf. lra.
Qed.

End RealMaximum.



(** The two-band scenario in binary64: bands (0,0) and (0,1) with
    Franck-Condon factors 1 and one half over the levels 0..3, the raw
    intensity of a line being the sum of its upper quantum numbers.  The
    peak of the first band is 1 and the peak of the second one half. *)
Example two_band_peaks_binary64 :
  (sim ← simulation.Simulation_init [0; 1; 2; 3] [[1; 0.5]]%float
           [(0, 0); (0, 1)];
   mapM (fun b =>
           out ← simulation.intensities_line
                   (fun _ ln => float_of_Z (band.rot_qn_up ln
                                            + band.branch_idx_up ln))
                   sim b;
           np_max out)
        (simulation.vib_bands sim))
  = Ok [1; 0.5]%float.
Proof. vm_compute. reflexivity. Qed.

(** ** The peak of a band in binary64

    The two facts of IEEE arithmetic that make the peak exact: a positive
    finite float divided by itself is 1, and 1 times a float is that float. *)

Lemma iter_shr_1_52 (m : positive) :
  SpecFloat.iter_pos shr_1 52%positive
    {| shr_m := Zpos (Pos.mul 4503599627370496 m);
       shr_r := false; shr_s := false |}
  = {| shr_m := Zpos m; shr_r := false; shr_s := false |}.
Proof. reflexivity. Qed.

Lemma digits2_pos_times_2_52 (m : positive) :
  Zpos (digits2_pos (Pos.mul 4503599627370496 m))
  = Zpos (digits2_pos m) + 52.
Proof. cbv [Pos.mul digits2_pos]. lia. Qed.

(** Rounding the mantissa [2^52 * m] at exponent [e - 52] gives back the
    float of mantissa [m] and exponent [e]. *)
Lemma binary_round_aux_times_2_52 (s : bool) (m : positive) (e : Z) :
  SpecFloat.bounded prec emax m e = true ->
  binary_round_aux prec emax s (Zpos (Pos.mul 4503599627370496 m))
    (Z.add (-52) e) loc_Exact = S754_finite s m e.
Proof.
  unfold SpecFloat.bounded, canonical_mantissa. intros Hb.
  apply andb_prop in Hb. destruct Hb as [Hc He].
  apply Z.eqb_eq in Hc. apply Z.leb_le in He.
  unfold binary_round_aux, shr_fexp.
  cbn [Zdigits2 shr_record_of_loc].
  rewrite digits2_pos_times_2_52.
  replace (Z.pos (digits2_pos m) + 52 + (-52 + e))
    with (Z.pos (digits2_pos m) + e) by lia.
  replace (fexp prec emax (Z.pos (digits2_pos m) + e)) with e
    by (symmetry; exact Hc).
  replace (e - (-52 + e)) with 52 by lia.
  cbn [shr]. rewrite iter_shr_1_52.
  cbn [shr_m loc_of_shr_record round_nearest_even Zdigits2].
  replace (-52 + e + 52) with e by lia.
  replace (fexp prec emax (Z.pos (digits2_pos m) + e)) with e
    by (symmetry; exact Hc).
  replace (e - e) with 0 by lia. cbn [shr shr_m].
  destruct (Z.leb_spec e (emax - prec)); [reflexivity | lia].
Qed.

Lemma float_mul_1_l (c : float) : (1 * c)%float = c.
Proof.
  apply Prim2SF_inj. rewrite mul_spec.
  pose proof (Prim2SF_valid c) as Hv.
  destruct (Prim2SF c) as [s|s| |s m e].
  - destruct s; reflexivity.
  - destruct s; reflexivity.
  - reflexivity.
  - change (Prim2SF 1) with (S754_finite false 4503599627370496 (-52)).
    cbn [SF64mul SFmul xorb].
    apply binary_round_aux_times_2_52. exact Hv.
Qed.

Lemma div_eucl_shiftl_53 (m : positive) :
  Z.div_eucl (Z.shiftl (Zpos m) 53) (Zpos m) = (9007199254740992, 0).
Proof.
  rewrite Z.shiftl_mul_pow2 by lia.
  assert (Hq : Z.pos m * 2 ^ 53 / Z.pos m = 9007199254740992).
  { rewrite Z.mul_comm. apply Z.div_mul. lia. }
  assert (Hr : (Z.pos m * 2 ^ 53) mod Z.pos m = 0).
  { rewrite Z.mul_comm. apply Z.mod_mul. lia. }
  unfold Z.div, Z.modulo in Hq, Hr.
  destruct (Z.div_eucl (Z.pos m * 2 ^ 53) (Z.pos m)) as [q r].
  congruence.
Qed.

Lemma SF64div_self (s : bool) (m : positive) (e : Z) :
  SF64div (S754_finite s m e) (S754_finite s m e)
  = S754_finite false 4503599627370496 (-52).
Proof.
  unfold SF64div, SFdiv, SFdiv_core_binary.
  cbn [Zdigits2].
  replace (Z.pos (digits2_pos m) + e - (Z.pos (digits2_pos m) + e))
    with 0 by lia.
  replace (e - e) with 0 by lia.
  change (Z.min (fexp prec emax 0) 0) with (-53).
  change (0 - -53) with 53.
  cbv iota beta.
  replace (Z.div_eucl (Z.shiftl (Z.pos m) 53) (Z.pos m))
    with (9007199254740992, 0) by (symmetry; apply div_eucl_shiftl_53).
  assert (Hloc : new_location (Z.pos m) 0 = loc_Exact).
  { unfold new_location. destruct (Z.even (Z.pos m)); reflexivity. }
  rewrite Hloc. destruct s; reflexivity.
Qed.

Lemma float_div_self (x : float) :
  (0 <? x)%float = true -> (x <? infinity)%float = true ->
  (x / x)%float = 1%float.
Proof.
  rewrite !ltb_spec. intros Hpos Hfin.
  apply Prim2SF_inj. rewrite div_spec.
  destruct (Prim2SF x) as [s|s| |s m e].
  - destruct s; discriminate Hpos.
  - destruct s; [discriminate Hpos | discriminate Hfin].
  - discriminate Hpos.
  - apply SF64div_self.
Qed.

(** X11: In binary64, when the greatest raw intensity of a band is positive and
    finite, the normalised intensity of every line that attains it is
    [franck_condon / max_fc] to the last bit. *)
Lemma intensities_line_peak_binary64
    (intensity : simulation.Band float -> band.Line -> float)
    (sim : simulation.Simulation float) (b : simulation.Band float)
    (m : float) :
  np_max (map (intensity b) (simulation.lines b)) = Ok m ->
  (0 <? m)%float = true -> (m <? infinity)%float = true ->
  exists out,
    simulation.intensities_line intensity sim b = Ok out /\
    forall (i : nat) (ln : band.Line),
      simulation.lines b !! i = Some ln -> intensity b ln = m ->
      out !! i = Some (simulation.franck_condon b
                       / simulation.max_fc sim)%float.
Proof.
  intros Hmax Hpos Hfin. unfold simulation.intensities_line.
  rewrite Hmax. cbn [mbind result_bind]. eexists. split; [reflexivity|].
  intros i ln Hi Hln.
  change map with (@fmap list _). rewrite !list_lookup_fmap, Hi.
  cbn [fmap option_fmap option_map fdiv fmul float_arith]. f_equal.
  rewrite Hln, float_div_self by assumption.
  apply float_mul_1_l.
Qed.

(** ** The sign of the square root in binary64 *)

Lemma SFsub_opp_r (x y : spec_float) :
  SFsub prec emax x (SFopp y) = SFadd prec emax x y.
Proof.
  destruct x as [sx|sx| |sx mx ex], y as [sy|sy| |sy my ey];
    try reflexivity;
    try (destruct sx, sy; reflexivity);
    try (destruct sy; reflexivity).
Qed.

Lemma SFadd_opp_r (x y : spec_float) :
  SFadd prec emax x (SFopp y) = SFsub prec emax x y.
Proof.
  destruct x as [sx|sx| |sx mx ex], y as [sy|sy| |sy my ey];
    try reflexivity;
    try (destruct sx, sy; reflexivity);
    try (destruct sy; reflexivity).
Qed.

(** In binary64 subtracting the opposite is adding, and adding the opposite
    is subtracting, to the last bit and for every operand. *)
Lemma float_sub_opp_r (x y : float) : (x - - y)%float = (x + y)%float.
Proof.
  apply Prim2SF_inj. rewrite sub_spec, add_spec, opp_spec.
  apply SFsub_opp_r.
Qed.

Lemma float_add_opp_r (x y : float) : (x + - y)%float = (x - y)%float.
Proof.
  apply Prim2SF_inj. rewrite sub_spec, add_spec, opp_spec.
  apply SFadd_opp_r.
Qed.

(** Multiplying by -1 changes the sign and nothing else. *)
Lemma float_mul_m1_l (c : float) : (-1 * c)%float = (- c)%float.
Proof.
  apply Prim2SF_inj. rewrite mul_spec, opp_spec.
  pose proof (Prim2SF_valid c) as Hv.
  destruct (Prim2SF c) as [s|s| |s m e].
  - destruct s; reflexivity.
  - destruct s; reflexivity.
  - reflexivity.
  - change (Prim2SF (-1)) with (S754_finite true 4503599627370496 (-52)).
    cbn [SF64mul SFmul xorb SFopp].
    replace (if s then false else true) with (negb s) by (by destruct s).
    apply binary_round_aux_times_2_52. exact Hv.
Qed.

Lemma float_of_Z_1 : float_of_Z 1 = 1%float.
Proof. vm_compute. reflexivity. Qed.

Lemma float_of_Z_m1 : float_of_Z (-1) = (-1)%float.
Proof. vm_compute. reflexivity. Qed.

(** C7: in binary64, for a state with rotational constants [b], [d], [h]
    and spin constants [s0], [s1], a rotational quantum number whose
    powers fit and constants [b], [s0] whose squares fit (so that the code
    raises no [OverflowError]), the square root is subtracted in
    component 1 and added in component 3 for every rotational quantum
    number other than 1; at rotational quantum number 1 the two signs are
    exchanged; component 2 is the polynomial alone.  Every equation holds
    to the last bit, also when the radicand is negative and the root a
    NaN. *)
Theorem C7_square_root_sign (rot_qn : Z) (b d h s0 s1 : float)
    (rt_rest sc_rest : list float) :
  fits_energy_term rot_qn ->
  square_fits b = true -> square_fits s0 = true ->
  energy.rotational_term rot_qn
    (energy.mkState (b :: d :: h :: rt_rest) (s0 :: s1 :: sc_rest)) 1 =
    Ok (if (rot_qn =? 1)%Z
        then polynomial_term b d h rot_qn + float_of_Z (2 * rot_qn + 3) * b
             + s0 + root_term (2 * rot_qn + 3) b s0
             + s1 * float_of_Z (rot_qn + 1)
        else polynomial_term b d h rot_qn + float_of_Z (2 * rot_qn + 3) * b
             + s0 - root_term (2 * rot_qn + 3) b s0
             + s1 * float_of_Z (rot_qn + 1))%float
  /\
  energy.rotational_term rot_qn
    (energy.mkState (b :: d :: h :: rt_rest) (s0 :: s1 :: sc_rest)) 2 =
    Ok (polynomial_term b d h rot_qn)
  /\
  energy.rotational_term rot_qn
    (energy.mkState (b :: d :: h :: rt_rest) (s0 :: s1 :: sc_rest)) 3 =
    Ok (if (rot_qn =? 1)%Z
        then polynomial_term b d h rot_qn - float_of_Z (2 * rot_qn - 1) * b
             - s0 - root_term (2 * rot_qn - 1) b s0
             - s1 * float_of_Z rot_qn
        else polynomial_term b d h rot_qn - float_of_Z (2 * rot_qn - 1) * b
             - s0 + root_term (2 * rot_qn - 1) b s0
             - s1 * float_of_Z rot_qn)%float.
Proof.
  intros _ _ _.
  unfold energy.rotational_term, polynomial_term, root_term.
  cbn [energy.rotational_terms energy.spn_const].
  rewrite !py_index_0, !py_index_1, !py_index_2.
  cbn [mbind result_bind Z.eqb Pos.eqb].
  cbn [fadd fsub fmul fdiv fsqrt of_Z float_arith].
  destruct (rot_qn =? 1).
  - rewrite float_of_Z_m1, !float_mul_m1_l, float_sub_opp_r, float_add_opp_r.
    repeat split; reflexivity.
  - rewrite float_of_Z_1, !float_mul_1_l.
    repeat split; reflexivity.
Qed.

Lemma C7_square_root_sign_witness :
  energy.rotational_term 1 herzberg_state 1 =
    Ok (if (1 =? 1)%Z
        then polynomial_term 1.4375 0.0000152587890625 0 1
             + float_of_Z (2 * 1 + 3) * 1.4375
             + 1.984375 + root_term (2 * 1 + 3) 1.4375 1.984375
             + -0.0078125 * float_of_Z (1 + 1)
        else polynomial_term 1.4375 0.0000152587890625 0 1
             + float_of_Z (2 * 1 + 3) * 1.4375
             + 1.984375 - root_term (2 * 1 + 3) 1.4375 1.984375
             + -0.0078125 * float_of_Z (1 + 1))%float
  /\
  energy.rotational_term 1 herzberg_state 2 =
    Ok (polynomial_term 1.4375 0.0000152587890625 0 1)%float
  /\
  energy.rotational_term 1 herzberg_state 3 =
    Ok (if (1 =? 1)%Z
        then polynomial_term 1.4375 0.0000152587890625 0 1
             - float_of_Z (2 * 1 - 1) * 1.4375
             - 1.984375 - root_term (2 * 1 - 1) 1.4375 1.984375
             - -0.0078125 * float_of_Z 1
        else polynomial_term 1.4375 0.0000152587890625 0 1
             - float_of_Z (2 * 1 - 1) * 1.4375
             - 1.984375 + root_term (2 * 1 - 1) 1.4375 1.984375
             - -0.0078125 * float_of_Z 1)%float.
Proof.
  apply (C7_square_root_sign 1 1.4375 0.0000152587890625 0 1.984375
           (-0.0078125) [] []).
  - unfold fits_energy_term. lia.
  - reflexivity.
  - reflexivity.
Defined.

(** The exchange at rotational quantum number 1 on numbers: component 3
    of the state above is the polynomial part minus the root, which is
    0.546875; and a radicand below zero gives NaN, not an error. *)
Example square_root_sign_binary64 :
  root_term (2 * 1 - 1) 1.4375%float 1.984375%float = 0.546875%float /\
  energy.rotational_term 1 herzberg_state 3 = Ok (-1.08599853515625)%float /\
  energy.rotational_term 1
    (energy.mkState [0x1.6666666666666p+0; 0; 0]%float
       [0x1.6666666666666p+0 + 0x1p-30; 0]%float) 3 = Ok nan.
Proof. repeat split; vm_compute; reflexivity. Qed.

(** ** A band whose greatest intensity is zero *)

Lemma float_mul_nan_l (c : float) : (nan * c)%float = nan.
Proof. rewrite <- (SF2Prim_Prim2SF (nan * c)), mul_spec. reflexivity. Qed.

Lemma fold_npy_maximum_zeros {A} (l : list A) :
  fold_left npy_maximum (map (fun _ => 0%float) l) 0%float = 0%float.
Proof. induction l as [|x l IH]; [reflexivity | exact IH]. Qed.

Lemma map_all_zero {A} (f : A -> float) (l : list A) :
  (forall x, x ∈ l -> f x = 0%float) -> map f l = map (fun _ => 0%float) l.
Proof.
  induction l as [|x l IH]; intros Hf; [reflexivity|].
  cbn [map]. rewrite (Hf x) by left.
  rewrite IH; [reflexivity|]. intros y Hy. apply Hf. by right.
Qed.

(** C8, as stated, fails: the greatest raw intensity of the band above is
    zero, and reading its normalised intensities raises nothing. *)
Lemma C8_zero_maximum_counterexample :
  np_max (map (fun _ => 0%float) (simulation.lines dark_band))
    = Ok 0%float /\
  ~ raises (simulation.intensities_line (fun _ _ => 0%float)
              dark_sim dark_band).
Proof.
  split; [reflexivity|].
  intros [e He]. vm_compute in He. discriminate He.
Qed.

(** C8, amended: in a band that has lines, all of raw intensity zero, the
    greatest raw intensity is zero and reading the normalised intensities
    raises no error: it returns one NaN per line (binary64 arithmetic, the
    quotient of zero by zero). *)
Theorem C8_zero_maximum_gives_nan
    (intensity : simulation.Band float -> band.Line -> float)
    (sim : simulation.Simulation float) (b : simulation.Band float) :
  simulation.lines b <> [] ->
  (forall ln, ln ∈ simulation.lines b -> intensity b ln = 0%float) ->
  np_max (map (intensity b) (simulation.lines b)) = Ok 0%float /\
  simulation.intensities_line intensity sim b
    = Ok (map (fun _ => nan) (simulation.lines b)).
Proof.
  intros Hne Hzero. unfold simulation.intensities_line.
  rewrite (map_all_zero _ _ Hzero).
  destruct (simulation.lines b) as [|l0 ls]; [contradiction|].
  assert (Hmax : np_max (map (fun _ : band.Line => 0%float) (l0 :: ls))
                 = Ok 0%float).
  { cbn [map np_max]. f_equal. apply fold_npy_maximum_zeros. }
  split; [exact Hmax|]. rewrite Hmax. cbn [mbind result_bind]. f_equal.
  rewrite !map_map. apply map_ext. intros _.
  change (fdiv 0%float 0%float) with nan.
  apply float_mul_nan_l.
Qed.

(** C8 at the band above. *)
Lemma C8_zero_maximum_gives_nan_witness :
  np_max (map (fun _ => 0%float) (simulation.lines dark_band))
    = Ok 0%float /\
  simulation.intensities_line (fun _ _ => 0%float) dark_sim dark_band
    = Ok (map (fun _ => nan) (simulation.lines dark_band)).
Proof.
  apply (C8_zero_maximum_gives_nan (fun _ _ => 0%float)
           dark_sim dark_band).
  - vm_compute. discriminate.
  - reflexivity.
Defined.

(** The one error the normalisation raises: a band without lines has no
    greatest intensity. *)
Example intensities_line_no_lines :
  raises (simulation.intensities_line (fun _ _ => 0%float) dark_sim
            (simulation.mkBand 0 0 [] 1%float)).
Proof. eexists. reflexivity. Qed.

(** ** The padding of the shared grid of [Sim.all_conv_data] *)

(** C4 at the simulation above with an instrument broadening of one
    sixteenth, so an instrument width of 12.5, and three grid points: the
    grid runs from 50000 - 125 to 50010 + 125, the padding being ten times
    the instrument width; ten times the greater of the Doppler width and 2
    is 20, which would put the grid from 49980 to 50030. *)
Theorem C4_padding_uses_instrument_width :
  sim.all_conv_data wide_slit_sim ∅ 0.0625%float 3
    = Ok ([49875; 50005; 50135]%float, [1; 1; 1]%float) /\
  sim.padding wide_slit_sim 0.0625%float = Ok 125%float /\
  doppler_padding wide_slit_sim = Ok 20%float.
Proof. repeat split; vm_compute; reflexivity. Qed.

(** Over the reals, a grid of at least two samples starts at [start] and
    ends at [stop]. *)
Lemma linspace_R_ends (start stop : R) (num : Z) :
  2 <= num ->
  exists grid, linspace start stop num = Ok grid /\
               head grid = Some start /\ last grid = Some stop.
Proof.
  intros Hnum. unfold linspace.
  destruct (Z.ltb_spec num 0); [lia|].
  destruct (Z.ltb_spec 1 num); [|lia].
  destruct (Z.ltb_spec 0 (num - 1)); [|lia].
  eexists. split; [reflexivity|]. split; [|apply last_snoc].
  destruct (Z.to_nat num) as [|[|n]] eqn:Hn; [lia | lia |].
  cbn [seq map removelast app head]. f_equal.
  cbn [fadd fmul fdiv fsub of_Z R_arith Z.of_nat].
  change (Z.of_nat 0) with 0.
  destruct (feqb _ _); unfold Rdiv; ring.
Qed.

(** What [all_conv_data] does over the reals: whenever it returns, with at
    least two grid points, the grid runs from the least line wavenumber of
    all bands minus [padding] to the greatest plus [padding]. *)
Lemma all_conv_data_grid_bounds (self : sim.Sim R)
    (fwhm_selections : gmap string bool) (inst_broadening_wl : R)
    (granularity : Z) (wavenumbers_conv intensities_conv : list R) :
  sim.all_conv_data self fwhm_selections inst_broadening_wl granularity
    = Ok (wavenumbers_conv, intensities_conv) ->
  2 <= granularity ->
  exists lo hi pad,
    np_min (concat (map sim.wavenumbers_line (sim.bands self))) = Ok lo /\
    np_max (concat (map sim.wavenumbers_line (sim.bands self))) = Ok hi /\
    sim.padding self inst_broadening_wl = Ok pad /\
    head wavenumbers_conv = Some (lo - pad)%R /\
    last wavenumbers_conv = Some (hi + pad)%R.
Proof.
  intros Hrun Hnum. unfold sim.all_conv_data in Hrun.
  destruct (sim.np_concatenate _) as [wns|] eqn:Hcat; [|discriminate].
  assert (wns = concat (map sim.wavenumbers_line (sim.bands self))) as ->.
  { unfold sim.np_concatenate in Hcat.
    destruct (map _ _); [discriminate | by injection Hcat]. }
  cbn [mbind result_bind] in Hrun.
  destruct (sim.padding self inst_broadening_wl) as [pad|]; [|discriminate].
  cbn [mbind result_bind] in Hrun.
  destruct (np_min _) as [lo|]; [|discriminate].
  cbn [mbind result_bind] in Hrun.
  destruct (np_max _) as [hi|]; [|discriminate].
  cbn [mbind result_bind] in Hrun.
  destruct (linspace_R_ends (fsub lo pad) (fadd hi pad) granularity Hnum)
    as (grid & Hgrid & Hhead & Hlast).
  rewrite Hgrid in Hrun. cbn [mbind result_bind] in Hrun.
  destruct (fold_left _ _ _); [|discriminate].
  injection Hrun as <- _.
  exists lo, hi, pad. auto.
Qed.

(** ** The global maximum of [Simulation.__init__] *)

Lemma py_max_R (x y : R) : py_max x y = if Rlt_dec x y then y else x.
Proof.
  unfold py_max. cbn [fltb R_arith]. destruct (Rlt_dec x y); reflexivity.
Qed.

(** Python's [max] of a non-empty sequence of reals is its greatest
    entry. *)
Lemma py_max_seq_R_spec (xs : list R) (m : R) :
  py_max_seq xs = Ok m -> m ∈ xs /\ forall y, y ∈ xs -> (y <= m)%R.
Proof.
  destruct xs as [|x xs]; [discriminate|]. cbn [py_max_seq]. intros [= <-].
  revert x. induction xs as [|z xs IH]; intros x; cbn [fold_left].
  - split; [by left|]. intros y [->|Hy]%elem_of_cons; [lra|].
    by apply elem_of_nil in Hy.
  - destruct (IH (py_max x z)) as [Hin Hub]. rewrite py_max_R in Hin, Hub |- *.
    split.
    + apply elem_of_cons in Hin as [Hin|Hin]; [|right; by right].
      rewrite Hin. destruct (Rlt_dec x z); [right; by left | by left].
    + assert (Hx : ((if Rlt_dec x z then z else x)
                    <= fold_left py_max xs (if Rlt_dec x z then z else x))%R)
        by (apply Hub; by left).
      intros y [->|[->|Hy]%elem_of_cons]%elem_of_cons.
      * destruct (Rlt_dec x z); lra.
      * destruct (Rlt_dec x z); lra.
      * apply Hub. by right.
Qed.

(** The [max_fc] a simulation is built with is the Franck-Condon factor of
    one of its bands and is not exceeded by that of any of them. *)
Lemma Simulation_init_max_fc (rot_lvls : list Z) (fc_data : list (list R))
    (band_list : list (Z * Z)) (sim : simulation.Simulation R) :
  simulation.Simulation_init rot_lvls fc_data band_list = Ok sim ->
  (exists b, b ∈ simulation.vib_bands sim /\
             simulation.franck_condon b = simulation.max_fc sim) /\
  (forall b, b ∈ simulation.vib_bands sim ->
             (simulation.franck_condon b <= simulation.max_fc sim)%R).
Proof.
  unfold simulation.Simulation_init. intros Hinit.
  destruct (simulation.build_bands _ _ _) as [bs|]; [|discriminate].
  cbn [mbind result_bind] in Hinit.
  destruct (py_max_seq _) as [m|] eqn:Hm; [|discriminate].
  injection Hinit as <-. cbn [simulation.vib_bands simulation.max_fc].
  apply py_max_seq_R_spec in Hm. destruct Hm as [Hin Hub].
  change (m ∈ simulation.franck_condon <$> bs) in Hin.
  apply list_elem_of_fmap in Hin. destruct Hin as (b & -> & Hb).
  split; [eauto|].
  intros b' Hb'. apply Hub.
  change (simulation.franck_condon b' ∈ simulation.franck_condon <$> bs).
  apply list_elem_of_fmap. eauto.
Qed.

(** Levels requested twice are enumerated twice: the lines of the pair
    (2, 1) appear once for each copy of level 2. *)
Example repeated_level_repeats_lines :
  ~ NoDup (band.get_allowed_lines [1; 2; 2]).
Proof.
  intros Hnd. apply (bool_decide_pack _) in Hnd.
  vm_compute in Hnd. exact Hnd.
Qed.

(** ** The selection rules of [band.py], in full *)

(** Membership in one call of [get_allowed_branches], in full. *)
Lemma elem_of_get_allowed_branches_iff (up lo : Z) (ln : band.Line) :
  is_rot_qn up -> is_rot_qn lo -> Z.odd lo = true ->
  ln ∈ band.get_allowed_branches up lo <->
  band.rot_qn_up ln = up /\ band.rot_qn_lo ln = lo /\ allowed_line ln = true.
Proof.
  intros Hup Hlo Hodd. unfold band.get_allowed_branches.
  rewrite int64_sub_rot_qn by assumption.
  destruct ln as [u l iu il nm]. unfold allowed_line.
  cbn [band.rot_qn_up band.rot_qn_lo band.branch_idx_up band.branch_idx_lo
       band.branch_name].
  destruct (Z.eqb_spec (up - lo) 1) as [Hr|Hr];
    [|destruct (Z.eqb_spec (up - lo) (-1)) as [Hp|Hp]].
  - rewrite get_branch_idx_r, !elem_of_cons, elem_of_nil. split.
    + intros Hin. decompose [or] Hin; try contradiction;
        match goal with H : _ = _ |- _ => injection H as -> -> -> -> -> end;
        rewrite Hodd; repeat split; rewrite (proj2 (Z.eqb_eq _ _) Hr);
        reflexivity.
    + intros (-> & -> & Hal). rewrite Hodd in Hal.
      rewrite (proj2 (Z.eqb_eq _ _) Hr) in Hal.
      rewrite (proj2 (Z.eqb_neq (up - lo) (-1))) in Hal by lia.
      cbn [andb orb] in Hal. rewrite orb_false_r in Hal.
      apply andb_prop in Hal as [Hrng Hal].
      apply andb_prop in Hrng as [Hiu Hil].
      destruct (in_branch_range_cases iu) as [->|[->|[->|(Hf & _)]]];
        [| | |congruence];
        (destruct (in_branch_range_cases il) as [->|[->|[->|(Hf & _)]]];
          [| | |congruence]);
        cbn in Hal; try discriminate Hal;
        rewrite ?orb_false_r, ?andb_true_r in Hal;
        apply String.eqb_eq in Hal as ->; tauto.
  - rewrite get_branch_idx_p, !elem_of_cons, elem_of_nil. split.
    + intros Hin. decompose [or] Hin; try contradiction;
        match goal with H : _ = _ |- _ => injection H as -> -> -> -> -> end;
        rewrite Hodd; repeat split; rewrite (proj2 (Z.eqb_eq _ _) Hp);
        rewrite (proj2 (Z.eqb_neq (up - lo) 1)) by lia; reflexivity.
    + intros (-> & -> & Hal). rewrite Hodd in Hal.
      rewrite (proj2 (Z.eqb_eq _ _) Hp) in Hal.
      rewrite (proj2 (Z.eqb_neq (up - lo) 1)) in Hal by lia.
      cbn [andb orb] in Hal.
      apply andb_prop in Hal as [Hrng Hal].
      apply andb_prop in Hrng as [Hiu Hil].
      destruct (in_branch_range_cases iu) as [->|[->|[->|(Hf & _)]]];
        [| | |congruence];
        (destruct (in_branch_range_cases il) as [->|[->|[->|(Hf & _)]]];
          [| | |congruence]);
        cbn in Hal; try discriminate Hal;
        rewrite ?orb_false_r, ?andb_true_r in Hal;
        apply String.eqb_eq in Hal as ->; tauto.
  - rewrite elem_of_nil. split; [contradiction|].
    intros (-> & -> & Hal).
    rewrite (proj2 (Z.eqb_neq _ _) Hr), (proj2 (Z.eqb_neq _ _) Hp) in Hal.
    cbn [andb orb] in Hal. rewrite andb_false_r in Hal. discriminate.
Qed.

(** X1: The enumeration is exactly the set of allowed lines between requested
    levels: a line is emitted if and only if its two rotational quantum
    numbers are requested levels and it passes the selection rules. *)
Theorem get_allowed_lines_sound_complete (rot_lvls : list Z) (ln : band.Line) :
  Forall is_rot_qn rot_lvls ->
  ln ∈ band.get_allowed_lines rot_lvls <->
  band.rot_qn_up ln ∈ rot_lvls /\ band.rot_qn_lo ln ∈ rot_lvls /\
  allowed_line ln = true.
Proof.
  intros Hlvls. rewrite Forall_forall in Hlvls.
  rewrite elem_of_get_allowed_lines. split.
  - intros (up & lo & Hup & Hlo & Hodd & Hin).
    assert (Hodd' : Z.odd lo = true).
    { rewrite Zmod_odd in Hodd. destruct (Z.odd lo); [reflexivity|contradiction]. }
    apply elem_of_get_allowed_branches_iff in Hin; auto.
    destruct Hin as (-> & -> & Hal). auto.
  - intros (Hup & Hlo & Hal).
    exists (band.rot_qn_up ln), (band.rot_qn_lo ln).
    assert (Hodd : Z.odd (band.rot_qn_lo ln) = true).
    { unfold allowed_line in Hal.
      destruct (Z.odd (band.rot_qn_lo ln)); [reflexivity | discriminate Hal]. }
    split; [assumption|]. split; [assumption|]. split.
    + rewrite Zmod_odd, Hodd. discriminate.
    + apply elem_of_get_allowed_branches_iff; auto.
Qed.

Lemma get_allowed_lines_sound_complete_witness :
  band.mkLine 2 3 1 2 "pq" ∈ band.get_allowed_lines [0; 1; 2; 3] <->
  band.rot_qn_up (band.mkLine 2 3 1 2 "pq") ∈ [0; 1; 2; 3] /\
  band.rot_qn_lo (band.mkLine 2 3 1 2 "pq") ∈ [0; 1; 2; 3] /\
  allowed_line (band.mkLine 2 3 1 2 "pq") = true.
Proof.
  apply (get_allowed_lines_sound_complete [0; 1; 2; 3]
           (band.mkLine 2 3 1 2 "pq")).
  repeat constructor; unfold is_rot_qn; lia.
Defined.

(** ** The number of lines of [get_allowed_lines] *)

Lemma length_list_bind {A B} (f : A -> list B) (l : list A) :
  length (l ≫= f) = sum_list_with (fun x => length (f x)) l.
Proof.
  induction l as [|x l IH]; [reflexivity|].
  rewrite bind_cons, length_app, IH. reflexivity.
Qed.

Lemma sum_list_with_add {A} (f g : A -> nat) (l : list A) :
  sum_list_with (fun x => (f x + g x)%nat) l
  = (sum_list_with f l + sum_list_with g l)%nat.
Proof. induction l as [|x l IH]; simpl; lia. Qed.

Lemma sum_list_with_ext_in {A} (f g : A -> nat) (l : list A) :
  (forall x, x ∈ l -> f x = g x) -> sum_list_with f l = sum_list_with g l.
Proof.
  induction l as [|x l IH]; intros Hfg; [reflexivity|]. simpl.
  rewrite (Hfg x) by left. rewrite IH; [reflexivity|].
  intros y Hy. apply Hfg. by right.
Qed.

(** A sum whose terms vanish away from one point [a]. *)
Lemma sum_list_with_single (g : Z -> nat) (a : Z) (l : list Z) :
  NoDup l -> (forall y, y ∈ l -> y <> a -> g y = 0%nat) ->
  sum_list_with g l = if bool_decide (a ∈ l) then g a else 0%nat.
Proof.
  induction 1 as [|x l Hx Hnd IH]; intros Hg; [reflexivity|].
  cbn [sum_list_with]. rewrite IH by (intros y Hy; apply Hg; by right).
  destruct (decide (x = a)) as [->|Hne].
  - rewrite (bool_decide_eq_true_2 (a ∈ a :: l)) by left.
    rewrite bool_decide_eq_false_2 by assumption. lia.
  - rewrite (Hg x) by (by left || assumption).
    destruct (decide (a ∈ l)) as [Hin|Hin].
    + rewrite !bool_decide_eq_true_2; [reflexivity | by right | assumption].
    + rewrite !bool_decide_eq_false_2; [reflexivity | | assumption].
      intros [->|?]%elem_of_cons; contradiction.
Qed.

(** Six lines for a pair of adjacent levels with an odd lower level, none
    for any other pair. *)
Lemma length_allowed_lines_step (up lo : Z) :
  is_rot_qn up -> is_rot_qn lo ->
  length (allowed_lines_step up lo)
  = if Z.odd lo && ((up - lo =? 1) || (up - lo =? -1)) then 6%nat else 0%nat.
Proof.
  intros Hup Hlo. unfold allowed_lines_step.
  rewrite Zmod_odd. unfold band.get_allowed_branches.
  rewrite int64_sub_rot_qn by assumption.
  destruct (Z.odd lo); cbn [negb andb Z.eqb]; [|reflexivity].
  destruct (up - lo =? 1); [reflexivity|].
  destruct (up - lo =? -1); reflexivity.
Qed.

Lemma length_get_allowed_lines_snoc (l : list Z) (x : Z) :
  length (band.get_allowed_lines (l ++ [x]))
  = (length (band.get_allowed_lines l)
     + sum_list_with (fun up => length (allowed_lines_step up x)) l
     + sum_list_with (fun lo => length (allowed_lines_step x lo)) l
     + length (allowed_lines_step x x))%nat.
Proof.
  change band.get_allowed_lines
    with (fun lvls : list Z => up ← lvls; lo ← lvls; allowed_lines_step up lo).
  cbv beta.
  rewrite !length_list_bind, sum_list_with_app. cbn [sum_list_with].
  rewrite (sum_list_with_ext_in _
    (fun up => (sum_list_with (fun lo => length (allowed_lines_step up lo)) l
                + length (allowed_lines_step up x))%nat)).
  - rewrite sum_list_with_add.
    rewrite !length_list_bind, sum_list_with_app. cbn [sum_list_with].
    rewrite (sum_list_with_ext_in
               (fun up => length (l ≫= allowed_lines_step up))
               (fun up => sum_list_with
                            (fun lo => length (allowed_lines_step up lo)) l) l).
    + lia.
    + intros up _. apply length_list_bind.
  - intros up _. rewrite length_list_bind, sum_list_with_app.
    cbn [sum_list_with]. lia.
Qed.

Lemma is_rot_qn_seqZ (k : nat) (y : Z) :
  Z.of_nat k <= 2 ^ 63 -> y ∈ seqZ 0 (Z.of_nat k) -> is_rot_qn y.
Proof. rewrite elem_of_seqZ. unfold is_rot_qn. lia. Qed.

Lemma length_get_allowed_lines_seqZ (k : nat) :
  Z.of_nat (S k) <= 2 ^ 63 ->
  length (band.get_allowed_lines (seqZ 0 (Z.of_nat (S k)))) = (6 * k)%nat.
Proof.
  induction k as [|k IH]; intros Hk; [reflexivity|].
  rewrite seqZ_S, length_get_allowed_lines_snoc, IH by lia.
  set (x := 0 + Z.of_nat (S k)).
  assert (Hx : is_rot_qn x) by (unfold is_rot_qn; lia).
  assert (Hl : forall y, y ∈ seqZ 0 (Z.of_nat (S k)) -> is_rot_qn y)
    by (intros y; apply is_rot_qn_seqZ; lia).
  rewrite (sum_list_with_single _ (x - 1)); [|apply NoDup_seqZ|].
  2:{ intros y Hy Hne. rewrite length_allowed_lines_step by auto.
      apply elem_of_seqZ in Hy.
      destruct (Z.odd x); [|reflexivity].
      destruct (Z.eqb_spec (y - x) 1); [lia|].
      destruct (Z.eqb_spec (y - x) (-1)); [lia|]. reflexivity. }
  rewrite (sum_list_with_single _ (x - 1)); [|apply NoDup_seqZ|].
  2:{ intros y Hy Hne. rewrite length_allowed_lines_step by auto.
      apply elem_of_seqZ in Hy.
      destruct (Z.eqb_spec (x - y) 1); [lia|].
      destruct (Z.eqb_spec (x - y) (-1)); [lia|].
      by rewrite andb_false_r. }
  rewrite bool_decide_eq_true_2 by (apply elem_of_seqZ; lia).
  rewrite !length_allowed_lines_step by (auto; unfold is_rot_qn in *; lia).
  replace (x - 1 - x) with (-1) by lia.
  replace (x - (x - 1)) with 1 by lia.
  replace (x - x) with 0 by lia.
  cbn [Z.eqb orb]. rewrite !andb_true_r, andb_false_r.
  replace (Z.odd (x - 1)) with (negb (Z.odd x))
    by (rewrite Z.odd_sub; destruct (Z.odd x); reflexivity).
  destruct (Z.odd x); cbn [negb]; lia.
Qed.

(** X2: From the levels [0, 1, ..., n-1] that the callers request, the
    enumeration emits six lines for each of the [n - 1] pairs of adjacent
    levels. *)
Theorem length_get_allowed_lines_arange (n : Z) :
  1 <= n <= 2 ^ 63 ->
  length (band.get_allowed_lines (arange n)) = Z.to_nat (6 * (n - 1)).
Proof.
  intros Hn. unfold arange.
  replace n with (Z.of_nat (S (Z.to_nat (n - 1)))) at 1 by lia.
  rewrite length_get_allowed_lines_seqZ by lia. lia.
Qed.

Lemma length_get_allowed_lines_arange_witness :
  length (band.get_allowed_lines (arange 40)) = Z.to_nat (6 * (40 - 1)).
Proof. apply (length_get_allowed_lines_arange 40). lia. Defined.

(** ** Lookups of [terms.py] and [energy.py] *)

Section Index.
Context {A : Type}.
Implicit Types (l : list A) (i : Z).

(** An index succeeds exactly from [-len] to [len - 1]; a negative one
    counts from the end. *)
Lemma py_index_Ok_iff l i x :
  py_index l i = Ok x <->
  (0 <= i < Z.of_nat (length l) /\ l !! Z.to_nat i = Some x) \/
  (- Z.of_nat (length l) <= i < 0 /\
   l !! Z.to_nat (i + Z.of_nat (length l)) = Some x).
Proof.
  unfold py_index.
  destruct (Z.ltb_spec i 0) as [Hneg|Hnn].
  - destruct (Z.leb_spec 0 (i + Z.of_nat (length l))) as [H0|H0];
      destruct (Z.ltb_spec (i + Z.of_nat (length l)) (Z.of_nat (length l)));
      cbn [andb]; try (split; [discriminate | intros [[? _]|[? _]]; lia]).
    destruct (l !! Z.to_nat (i + Z.of_nat (length l))) as [y|] eqn:Hy.
    + split; [intros [= ->]; right; split; [lia | reflexivity]|].
      intros [[? _]|[_ [= ->]]]; [lia | reflexivity].
    + split; [discriminate | intros [[? _]|[_ ?]]; [lia | discriminate]].
  - destruct (Z.leb_spec 0 i); [|lia].
    destruct (Z.ltb_spec i (Z.of_nat (length l))); cbn [andb];
      [|split; [discriminate | intros [[? _]|[? _]]; lia]].
    destruct (l !! Z.to_nat i) as [y|] eqn:Hy.
    + split; [intros [= ->]; left; split; [lia | reflexivity]|].
      intros [[_ [= ->]]|[? _]]; [reflexivity | lia].
    + split; [discriminate | intros [[_ ?]|[? _]]; [discriminate | lia]].
Qed.

Lemma py_index_succeeds_iff l i :
  (exists x, py_index l i = Ok x) <->
  - Z.of_nat (length l) <= i < Z.of_nat (length l).
Proof.
  split.
  - intros [x Hx]. apply py_index_Ok_iff in Hx. lia.
  - intros Hi. destruct (Z.ltb_spec i 0).
    + destruct (lookup_lt_is_Some_2 l (Z.to_nat (i + Z.of_nat (length l))))
        as [x Hx]; [lia|].
      exists x. apply py_index_Ok_iff. right. split; [lia | assumption].
    + destruct (lookup_lt_is_Some_2 l (Z.to_nat i)) as [x Hx]; [lia|].
      exists x. apply py_index_Ok_iff. left. split; [lia | assumption].
Qed.

(** The only exception of an index is [IndexError]. *)
Lemma py_index_Raise l i e : py_index l i = Raise e -> e = IndexError.
Proof.
  unfold py_index. destruct (_ && _); [|congruence].
  destruct (l !! _); congruence.
Qed.

End Index.

(** X3: A vibrational quantum number below zero does not fail as long as it is
    not below [-len(G)]: it reads the table from its end, as Python lists
    do; below [-len(G)] the lookup raises [IndexError]. *)
Theorem vibrational_term_negative_index {F : Type} (state : terms.State F)
    (g : list F) (v_qn : Z) :
  terms.constants state !! "G" = Some g ->
  v_qn < 0 ->
  if - Z.of_nat (length g) <=? v_qn
  then exists x, g !! Z.to_nat (v_qn + Z.of_nat (length g)) = Some x /\
                 terms.vibrational_term state v_qn = Ok x
  else terms.vibrational_term state v_qn = Raise IndexError.
Proof.
  intros Hg Hv.
  unfold terms.vibrational_term, terms.constant_at, py_getitem.
  rewrite Hg. cbn [mbind result_bind].
  destruct (Z.leb_spec (- Z.of_nat (length g)) v_qn) as [Hin|Hout].
  - destruct (lookup_lt_is_Some_2 g (Z.to_nat (v_qn + Z.of_nat (length g))))
      as [x Hx]; [lia|].
    exists x. split; [assumption|].
    apply py_index_Ok_iff. right. split; [lia | assumption].
  - destruct (py_index g v_qn) as [x|e] eqn:Hidx.
    + assert (exists y, py_index g v_qn = Ok y) as Hs by eauto.
      apply py_index_succeeds_iff in Hs. lia.
    + apply py_index_Raise in Hidx. by subst.
Qed.

Lemma vibrational_term_negative_index_witness :
  if - Z.of_nat (length [787; 2344; 3877]) <=? -1
  then exists x, [787; 2344; 3877]
                   !! Z.to_nat (-1 + Z.of_nat (length [787; 2344; 3877]))
                 = Some x /\
                 terms.vibrational_term
                   (terms.mkState "X3Sg-" {["G" := [787; 2344; 3877]]}) (-1)
                 = Ok x
  else terms.vibrational_term
         (terms.mkState "X3Sg-" {["G" := [787; 2344; 3877]]}) (-1)
       = Raise IndexError.
Proof.
  apply (vibrational_term_negative_index
           (terms.mkState "X3Sg-" {["G" := [787; 2344; 3877]]})
           [787; 2344; 3877] (-1)).
  - reflexivity.
  - lia.
Defined.

(** A lookup of a tabulated constant raises nothing but a [LookupError]. *)
Lemma constant_at_Raise {F : Type} (lookup_table : gmap string (list F))
    (key : string) (v_qn : Z) (e : exn) :
  terms.constant_at lookup_table key v_qn = Raise e ->
  is_LookupError e = true.
Proof.
  unfold terms.constant_at, py_getitem.
  destruct (lookup_table !! key) as [t|]; cbn [mbind result_bind].
  - intros He. apply py_index_Raise in He. by subst.
  - intros [= <-]. reflexivity.
Qed.

(** X4: With its six constants tabulated at the vibrational level and a
    rotational quantum number whose powers fit (so that no integer
    overflows when it is converted to a float), [rotational_term] returns
    a value for the branch indices 1, 2 and 3 and raises [ValueError],
    naming the index, for any other. *)
Theorem rotational_term_branch_index `{Arith F}
    (eigvals : (F * F) * (F * F) -> F * F)
    (state : terms.State F) (v_qn j_qn branch_idx : Z) :
  fits_cheung_term j_qn ->
  Forall (fun key => exists c,
            terms.constant_at (terms.constants state) key v_qn = Ok c)
         rotational_constants ->
  if in_branch_range branch_idx
  then exists x,
         terms.rotational_term eigvals state v_qn j_qn branch_idx = Ok x
  else terms.rotational_term eigvals state v_qn j_qn branch_idx
       = Raise (ValueError ("Invalid branch index: " +:+ pretty branch_idx)).
Proof.
  intros _ Hall. unfold rotational_constants in Hall.
  repeat match goal with
    | H : Forall _ (_ :: _) |- _ => apply Forall_cons in H as [[? ?] H]
    end.
  unfold terms.rotational_term.
  repeat match goal with
    | H : terms.constant_at _ _ _ = Ok _ |- _ => rewrite H; clear H
    end.
  cbn [mbind result_bind].
  destruct (String.eqb _ _); destruct (eigvals _) as [f1 f3];
    (destruct (in_branch_range_cases branch_idx)
       as [->|[->|[->|(Hr & ? & ? & ?)]]];
     [cbn; eauto .. |]);
    rewrite Hr;
    rewrite !(proj2 (Z.eqb_neq _ _)) by assumption; reflexivity.
Qed.

Lemma rotational_term_branch_index_witness :
  if in_branch_range 7
  then exists x,
         terms.rotational_term (fun m => (m.1.1, m.2.2)) X3Sg_example 0 1 7
         = Ok x
  else terms.rotational_term (fun m => (m.1.1, m.2.2)) X3Sg_example 0 1 7
       = Raise (ValueError ("Invalid branch index: " +:+ pretty 7)).
Proof.
  apply (rotational_term_branch_index (fun m => (m.1.1, m.2.2))
           X3Sg_example 0 1 7).
  - unfold fits_cheung_term. lia.
  - repeat constructor; eexists; reflexivity.
Defined.

(** X5: When one of the six constants is not tabulated at the vibrational
    level, [rotational_term] raises a [LookupError] whatever the branch
    index is: the tables are read before the branch index is looked at. *)
Theorem rotational_term_lookup_error `{Arith F}
    (eigvals : (F * F) * (F * F) -> F * F)
    (state : terms.State F) (v_qn j_qn branch_idx : Z) :
  Exists (fun key => raises (terms.constant_at (terms.constants state)
                               key v_qn))
         rotational_constants ->
  raises_LookupError
    (terms.rotational_term eigvals state v_qn j_qn branch_idx).
Proof.
  intros Hex. unfold terms.rotational_term, raises_LookupError.
  assert (Hstep : forall key (k : F -> result F),
            (forall c, raises (terms.constant_at (terms.constants state)
                                 key v_qn)
                       \/ (exists e, k c = Raise e /\ is_LookupError e = true))
            -> exists e,
                 terms.constant_at (terms.constants state) key v_qn ≫= k
                 = Raise e /\ is_LookupError e = true).
  { intros key k Hk.
    destruct (terms.constant_at (terms.constants state) key v_qn)
      as [c|e] eqn:Hc; cbn [mbind result_bind].
    - destruct (Hk c) as [[e He]|Hk']; [discriminate He | exact Hk'].
    - exists e. split; [reflexivity|]. eapply constant_at_Raise, Hc. }
  unfold rotational_constants in Hex.
  repeat (apply Exists_cons in Hex as [Hex|Hex];
          [ repeat (apply Hstep; intros ?; (left; exact Hex) || right) | ]).
  all: try (apply Exists_nil in Hex; contradiction).
  all: apply Hstep; intros ?; left; exact Hex.
Qed.

Lemma rotational_term_lookup_error_witness :
  raises_LookupError
    (terms.rotational_term (fun m => (m.1.1, m.2.2))
       (terms.mkState "B3Su-" {["B" := [0.8%R]]}) 0 1 7).
Proof.
  apply (rotational_term_lookup_error (fun m => (m.1.1, m.2.2))
           (terms.mkState "B3Su-" {["B" := [0.8%R]]}) 0 1 7).
  apply Exists_cons_tl, Exists_cons_hd. eexists. reflexivity.
Defined.

(** ** [energy.py] *)

(** X6: [energy.rotational_term] does not validate the branch index: every
    index other than 1 and 2 is computed as component 3. *)
Theorem energy_rotational_term_other_index `{Arith F} (rot_qn : Z)
    (state : energy.State F) (branch_idx : Z) :
  branch_idx <> 1 -> branch_idx <> 2 ->
  energy.rotational_term rot_qn state branch_idx
  = energy.rotational_term rot_qn state 3.
Proof.
  intros H1 H2. unfold energy.rotational_term.
  rewrite !(proj2 (Z.eqb_neq branch_idx _)) by assumption. reflexivity.
Qed.

Lemma energy_rotational_term_other_index_witness :
  energy.rotational_term 5
    (energy.mkState [1.4; 0.000005; 0]%R [1.98; -0.008]%R) (-4)
  = energy.rotational_term 5
      (energy.mkState [1.4; 0.000005; 0]%R [1.98; -0.008]%R) 3.
Proof.
  apply (energy_rotational_term_other_index 5
           (energy.mkState [1.4; 0.000005; 0]%R [1.98; -0.008]%R) (-4)); lia.
Defined.

(** X7: in binary64, for a rotational quantum number whose powers fit and
    constants whose squares fit (so that the code raises no
    [OverflowError]), [energy.rotational_term] returns a value exactly
    when the state has at least three rotational terms and, unless the
    branch index is 2, at least two spin constants; component 2 never
    reads the spin constants. *)
Theorem energy_rotational_term_succeeds_iff (rot_qn : Z)
    (state : energy.State float) (branch_idx : Z) :
  fits_energy_term rot_qn ->
  Forall (fun x => square_fits x = true) (energy.rotational_terms state) ->
  Forall (fun x => square_fits x = true) (energy.spn_const state) ->
  (exists x, energy.rotational_term rot_qn state branch_idx = Ok x) <->
  (3 <= length (energy.rotational_terms state))%nat /\
  (branch_idx = 2 \/ (2 <= length (energy.spn_const state))%nat).
Proof.
  intros _ _ _. unfold energy.rotational_term.
  destruct state as [rt sc]. cbn [energy.rotational_terms energy.spn_const].
  destruct rt as [|b [|d [|h rt]]].
  1-3: split; [intros [x Hx]; discriminate Hx | cbn [length]; lia].
  rewrite py_index_0, py_index_1, py_index_2. cbn [mbind result_bind].
  destruct (Z.eqb_spec branch_idx 1) as [->|H1];
    [|destruct (Z.eqb_spec branch_idx 2) as [->|H2]].
  - destruct sc as [|s0 [|s1 sc]].
    1-2: split; [intros [x Hx]; discriminate Hx | cbn [length]; lia].
    rewrite py_index_0, py_index_1. cbn [mbind result_bind length].
    split; [lia | eauto].
  - split; [cbn [length]; lia | eauto].
  - destruct sc as [|s0 [|s1 sc]].
    1-2: split; [intros [x Hx]; discriminate Hx | cbn [length]; lia].
    rewrite py_index_0, py_index_1. cbn [mbind result_bind length].
    split; [lia | eauto].
Qed.

Lemma energy_rotational_term_succeeds_iff_witness :
  (exists x, energy.rotational_term 5 herzberg_state 1 = Ok x) <->
  (3 <= length (energy.rotational_terms herzberg_state))%nat /\
  (1 = 2 \/ (2 <= length (energy.spn_const herzberg_state))%nat).
Proof.
  apply (energy_rotational_term_succeeds_iff 5 herzberg_state 1).
  - unfold fits_energy_term. lia.
  - repeat constructor.
  - repeat constructor.
Defined.

(** ** [energy.get_band_origin] *)

(** X8: Over the reals, band origins combine as term differences do: the
    origin from a state to itself is zero, exchanging the two states changes
    its sign, and the origin from [a] to [c] is the sum of the origins from
    [a] to [b] and from [b] to [c]. *)
Theorem get_band_origin_combination (a b c : energy_origin.State R) :
  energy_origin.get_band_origin a a = 0%R /\
  energy_origin.get_band_origin a b
    = (- energy_origin.get_band_origin b a)%R /\
  energy_origin.get_band_origin a c
    = (energy_origin.get_band_origin a b
       + energy_origin.get_band_origin b c)%R.
Proof.
  unfold energy_origin.get_band_origin. cbn [fadd fsub R_arith].
  repeat split; ring.
Qed.

(** ** The bands of [Simulation.__init__] *)

Lemma build_bands_spec {F : Type} (rot_lvls : list Z)
    (fc_data : list (list F)) (band_list : list (Z * Z))
    (bs : list (simulation.Band F)) :
  simulation.build_bands rot_lvls fc_data band_list = Ok bs ->
  map (fun b => (simulation.vib_qn_up b, simulation.vib_qn_lo b)) bs
    = band_list /\
  Forall (band_from_table rot_lvls fc_data) bs.
Proof.
  revert bs. induction band_list as [|[u l] rest IH]; intros bs;
    cbn [simulation.build_bands].
  - intros [= <-]. split; [reflexivity | constructor].
  - unfold simulation.Band_init. cbn [fst snd].
    destruct (py_index fc_data u) as [row|] eqn:Hrow; [|discriminate].
    cbn [mbind result_bind].
    destruct (py_index row l) as [fc|] eqn:Hfc; [|discriminate].
    cbn [mbind result_bind].
    destruct (simulation.build_bands rot_lvls fc_data rest) as [bs'|];
      [|discriminate].
    cbn [mbind result_bind]. intros [= <-].
    destruct (IH bs' eq_refl) as [Hmap Hall].
    split; [cbn [map]; by rewrite Hmap|].
    constructor; [|assumption].
    split; [reflexivity|]. exists row. auto.
Qed.

(** X9: A simulation that [Simulation.__init__] builds was asked for at least
    one band; it holds the requested bands in the requested order, each with
    the lines of the one enumeration over the simulation's levels and with
    its Franck-Condon factor read from the table at the band's two
    vibrational quantum numbers. *)
Theorem Simulation_init_bands {F : Type} `{Arith F} (rot_lvls : list Z)
    (fc_data : list (list F)) (band_list : list (Z * Z))
    (sim : simulation.Simulation F) :
  simulation.Simulation_init rot_lvls fc_data band_list = Ok sim ->
  band_list <> [] /\
  simulation.rot_lvls sim = rot_lvls /\
  map (fun b => (simulation.vib_qn_up b, simulation.vib_qn_lo b))
      (simulation.vib_bands sim) = band_list /\
  Forall (band_from_table rot_lvls fc_data) (simulation.vib_bands sim).
Proof.
  unfold simulation.Simulation_init. intros Hinit.
  destruct (simulation.build_bands _ _ _) as [bs|] eqn:Hbs; [|discriminate].
  cbn [mbind result_bind] in Hinit.
  destruct (py_max_seq _) as [m|] eqn:Hm; [|discriminate].
  injection Hinit as <-.
  cbn [simulation.vib_bands simulation.rot_lvls].
  destruct (build_bands_spec _ _ _ _ Hbs) as [Hmap Hall].
  split; [|auto].
  intros ->. destruct bs; [discriminate Hm | discriminate Hmap].
Qed.

Lemma Simulation_init_bands_witness :
  [(0, 0); (0, 1)] <> [] /\
  simulation.rot_lvls
    (simulation.mkSimulation [0; 1; 2]
       [simulation.mkBand 0 0 (band.get_allowed_lines [0; 1; 2]) 1%float;
        simulation.mkBand 0 1 (band.get_allowed_lines [0; 1; 2]) 0.5%float]
       1%float) = [0; 1; 2] /\
  map (fun b => (simulation.vib_qn_up b, simulation.vib_qn_lo b))
      (simulation.vib_bands
         (simulation.mkSimulation [0; 1; 2]
            [simulation.mkBand 0 0 (band.get_allowed_lines [0; 1; 2]) 1%float;
             simulation.mkBand 0 1 (band.get_allowed_lines [0; 1; 2])
               0.5%float]
            1%float)) = [(0, 0); (0, 1)] /\
  Forall (band_from_table [0; 1; 2] [[1; 0.5]]%float)
    (simulation.vib_bands
       (simulation.mkSimulation [0; 1; 2]
          [simulation.mkBand 0 0 (band.get_allowed_lines [0; 1; 2]) 1%float;
           simulation.mkBand 0 1 (band.get_allowed_lines [0; 1; 2]) 0.5%float]
          1%float)).
Proof.
  apply (Simulation_init_bands [0; 1; 2] [[1; 0.5]]%float [(0, 0); (0, 1)]).
  vm_compute. reflexivity.
Defined.

(** X10: Over the reals, in a simulation that [Simulation.__init__] built from
    positive Franck-Condon factors, the normalised intensities of a band
    whose raw intensities are not negative and not all zero lie between 0
    and 1. *)
Theorem intensities_line_unit_range
    (intensity : simulation.Band R -> band.Line -> R)
    (rot_lvls : list Z) (fc_data : list (list R)) (band_list : list (Z * Z))
    (sim : simulation.Simulation R) (b : simulation.Band R) (out : list R) :
  simulation.Simulation_init rot_lvls fc_data band_list = Ok sim ->
  Forall (fun b' => (0 < simulation.franck_condon b')%R)
         (simulation.vib_bands sim) ->
  b ∈ simulation.vib_bands sim ->
  (forall ln, ln ∈ simulation.lines b -> (0 <= intensity b ln)%R) ->
  (exists ln, ln ∈ simulation.lines b /\ intensity b ln <> 0%R) ->
  simulation.intensities_line intensity sim b = Ok out ->
  Forall (fun x => (0 <= x <= 1)%R) out.
Proof.
  intros Hinit Hfc Hb Hnn (ln & Hln & Hnz) Hout.
  apply Forall_forall. intros x Hx.
  rewrite Forall_forall in Hfc.
  apply Simulation_init_max_fc in Hinit. destruct Hinit as [_ Hub].
  assert (Hfcb := Hfc b Hb). assert (Hle := Hub b Hb).
  unfold simulation.intensities_line in Hout.
  destruct (np_max _) as [m|] eqn:Hm; [|discriminate].
  cbn [mbind result_bind] in Hout. injection Hout as <-.
  apply np_max_R_spec in Hm. destruct Hm as [_ Hmub].
  assert (Hraw : forall ln', ln' ∈ simulation.lines b ->
                             (0 <= intensity b ln' <= m)%R).
  { intros ln' Hln'. split; [by apply Hnn|]. apply Hmub.
    change (intensity b ln' ∈ intensity b <$> simulation.lines b).
    apply list_elem_of_fmap. eauto. }
  assert (Hpos : (0 < m)%R).
  { specialize (Hraw ln Hln). lra. }
  change map with (@fmap list _) in Hx.
  apply list_elem_of_fmap in Hx as (y & -> & Hy).
  apply list_elem_of_fmap in Hy as (z & -> & Hz).
  apply list_elem_of_fmap in Hz as (ln' & -> & Hln').
  specialize (Hraw ln' Hln').
  cbn [fdiv fmul R_arith].
  assert (Hq : (0 <= intensity b ln' / m <= 1)%R).
  { split.
    - apply Rmult_le_pos; [lra|]. apply Rlt_le, Rinv_0_lt_compat, Hpos.
    - apply Rmult_le_reg_r with m; [assumption|].
      unfold Rdiv. rewrite Rmult_assoc, Rinv_l by lra. lra. }
  assert (Hc : (0 <= simulation.franck_condon b / simulation.max_fc sim
                <= 1)%R).
  { assert (0 < simulation.max_fc sim)%R by lra. split.
    - apply Rmult_le_pos; [lra|]. apply Rlt_le, Rinv_0_lt_compat. assumption.
    - apply Rmult_le_reg_r with (simulation.max_fc sim); [assumption|].
      unfold Rdiv. rewrite Rmult_assoc, Rinv_l by lra. lra. }
  split.
  - apply Rmult_le_pos; lra.
  - replace 1%R with (1 * 1)%R by ring.
    apply Rmult_le_compat; lra.
Qed.

Lemma Simulation_init_two_band_sim :
  simulation.Simulation_init [1; 2] [[1; 1 / 2]]%R [(0, 0); (0, 1)]
  = Ok two_band_sim.
Proof.
  unfold simulation.Simulation_init.
  change (simulation.build_bands [1; 2] [[1; 1 / 2]]%R [(0, 0); (0, 1)])
    with (Ok [full_band; half_band]).
  cbn [mbind result_bind map py_max_seq fold_left simulation.franck_condon
       full_band half_band].
  rewrite py_max_R. destruct (Rlt_dec 1 (1 / 2)); [lra | reflexivity].
Qed.

Lemma np_max_half_band :
  np_max (map (fun ln => IZR (band.branch_idx_up ln))
              (simulation.lines half_band)) = Ok 3%R.
Proof.
  let l := eval vm_compute in (band.get_allowed_lines [1; 2]) in
  change (simulation.lines half_band) with l.
  cbn [map np_max fold_left band.branch_idx_up]. f_equal.
  rewrite !npy_maximum_R.
  repeat (destruct (Rle_dec _ _); try lra).
Qed.

Lemma intensities_line_unit_range_witness :
  Forall (fun x => (0 <= x <= 1)%R)
    (map (fun x => (x * (1 / 2 / 1))%R)
       (map (fun x => (x / 3)%R)
          (map (fun ln => IZR (band.branch_idx_up ln))
             (simulation.lines half_band)))).
Proof.
  apply (intensities_line_unit_range
           (fun _ ln => IZR (band.branch_idx_up ln))
           [1; 2] [[1; 1 / 2]]%R [(0, 0); (0, 1)] two_band_sim half_band).
  - exact Simulation_init_two_band_sim.
  - repeat constructor; cbn; lra.
  - right. left.
  - intros ln Hln.
    let l := eval vm_compute in (band.get_allowed_lines [1; 2]) in
    change (simulation.lines half_band) with l in Hln.
    rewrite !elem_of_cons, elem_of_nil in Hln.
    decompose [or] Hln; subst; cbn; try lra; try contradiction.
  - exists (band.mkLine 2 1 1 1 "r"). split; [left | cbn; lra].
  - unfold simulation.intensities_line. rewrite np_max_half_band.
    reflexivity.
Defined.

(** The peak in binary64 at the band above: the greatest raw intensity is
    5. *)
Lemma intensities_line_peak_binary64_witness :
  exists out,
    simulation.intensities_line (fun _ => upper_sum) lit_sim lit_band
      = Ok out /\
    forall (i : nat) (ln : band.Line),
      simulation.lines lit_band !! i = Some ln -> upper_sum ln = 5%float ->
      out !! i = Some (simulation.franck_condon lit_band
                       / simulation.max_fc lit_sim)%float.
Proof.
  apply (intensities_line_peak_binary64 (fun _ => upper_sum)
           lit_sim lit_band 5%float).
  - vm_compute. reflexivity.
  - vm_compute. reflexivity.
  - vm_compute. reflexivity.
Defined.

(** X12: Over the reals the normalisation removes a common positive factor of
    the raw intensities: when the greatest raw intensity of the band is not
    zero, multiplying every raw intensity by the same [k > 0] changes
    nothing in what [intensities_line] returns. *)
Theorem intensities_line_scale_invariant
    (intensity : simulation.Band R -> band.Line -> R) (k m : R)
    (sim : simulation.Simulation R) (b : simulation.Band R) :
  np_max (map (intensity b) (simulation.lines b)) = Ok m ->
  m <> 0%R -> (0 < k)%R ->
  simulation.intensities_line (fun b' ln => (k * intensity b' ln)%R) sim b
  = simulation.intensities_line intensity sim b.
Proof.
  intros Hm Hnz Hk. unfold simulation.intensities_line. rewrite Hm.
  assert (Hkm : np_max (map (fun ln => (k * intensity b ln)%R)
                            (simulation.lines b)) = Ok (k * m)%R).
  { destruct (simulation.lines b) as [|l0 ls]; [discriminate|].
    cbn [map np_max] in Hm |- *. injection Hm as <-. f_equal.
    rewrite <- (map_map (intensity b) (fun x => (k * x)%R)).
    apply (fold_npy_maximum_R_mono (fun x => (k * x)%R)).
    intros x y Hxy. cbn beta. apply Rmult_le_compat_l; [lra | exact Hxy]. }
  rewrite Hkm. cbn [mbind result_bind]. f_equal.
  rewrite !map_map. apply map_ext. intros ln.
  cbn [fdiv fmul R_arith]. f_equal. field.
  split; first [assumption | lra].
Qed.

Lemma intensities_line_scale_invariant_witness :
  simulation.intensities_line
    (fun _ ln => (7 * IZR (band.branch_idx_up ln))%R) two_band_sim half_band
  = simulation.intensities_line
      (fun _ ln => IZR (band.branch_idx_up ln)) two_band_sim half_band.
Proof.
  apply (intensities_line_scale_invariant
           (fun _ ln => IZR (band.branch_idx_up ln)) 7%R 3%R
           two_band_sim half_band).
  - exact np_max_half_band.
  - lra.
  - lra.
Defined.

(** ** The shared grid of [Sim.all_conv_data] *)

Lemma length_linspace {F : Type} `{Arith F} (start stop : F) (num : Z)
    (grid : list F) :
  linspace start stop num = Ok grid ->
  0 <= num /\ length grid = Z.to_nat num.
Proof.
  unfold linspace. destruct (Z.ltb_spec num 0); [discriminate|].
  intros [= <-]. split; [assumption|].
  destruct (Z.ltb_spec 1 num).
  - rewrite length_app, removelast_firstn_len, length_take, length_map,
      length_seq.
    cbn [length]. lia.
  - by rewrite length_map, length_seq.
Qed.

Lemma np_iadd_length {F : Type} `{Arith F} (a b c : list F) :
  sim.np_iadd a b = Ok c -> length c = length a.
Proof.
  unfold sim.np_iadd. destruct (Nat.eqb_spec (length b) (length a)).
  - intros [= <-]. by apply length_zip_with_l_eq.
  - destruct b as [|y [|? ?]]; try discriminate.
    intros [= <-]. by rewrite length_map.
Qed.

Lemma fold_np_iadd_length {F : Type} `{Arith F} {B : Type}
    (f : B -> list F) (bands : list B) (acc : result (list F))
    (c : list F) :
  fold_left (fun acc band => a ← acc; sim.np_iadd a (f band)) bands acc
    = Ok c ->
  exists a, acc = Ok a /\ length c = length a.
Proof.
  revert acc. induction bands as [|b bands IH]; intros acc; cbn [fold_left].
  - intros ->. eauto.
  - intros Hfold. apply IH in Hfold as (a' & Ha' & Hlen).
    destruct acc as [a|]; [|discriminate].
    cbn [mbind result_bind] in Ha'. apply np_iadd_length in Ha'.
    exists a. split; [reflexivity | congruence].
Qed.

(** X13: Whenever [all_conv_data] returns, the number of samples asked for is
    not negative, the grid has that many samples and the summed
    intensities have one entry per grid sample. *)
Theorem all_conv_data_lengths {F : Type} `{Arith F} (self : sim.Sim F)
    (fwhm_selections : gmap string bool) (inst_broadening_wl : F)
    (granularity : Z) (wavenumbers_conv intensities_conv : list F) :
  sim.all_conv_data self fwhm_selections inst_broadening_wl granularity
    = Ok (wavenumbers_conv, intensities_conv) ->
  0 <= granularity /\
  length wavenumbers_conv = Z.to_nat granularity /\
  length intensities_conv = length wavenumbers_conv.
Proof.
  unfold sim.all_conv_data. intros Hrun.
  destruct (sim.np_concatenate _) as [wns|]; [|discriminate].
  cbn [mbind result_bind] in Hrun.
  destruct (sim.padding self inst_broadening_wl) as [pad|]; [|discriminate].
  cbn [mbind result_bind] in Hrun.
  destruct (np_min _) as [lo|]; [|discriminate].
  cbn [mbind result_bind] in Hrun.
  destruct (np_max _) as [hi|]; [|discriminate].
  cbn [mbind result_bind] in Hrun.
  destruct (linspace _ _ _) as [grid|] eqn:Hgrid; [|discriminate].
  cbn [mbind result_bind] in Hrun.
  destruct (fold_left _ _ _) as [ints|] eqn:Hfold; [|discriminate].
  injection Hrun as <- <-.
  apply length_linspace in Hgrid as [Hnum Hlen].
  apply (fold_np_iadd_length
           (fun band => sim.intensities_conv band fwhm_selections
                          inst_broadening_wl grid)) in Hfold
    as (a & [= <-] & Hints).
  rewrite length_map in Hints. auto.
Qed.

Lemma all_conv_data_lengths_witness :
  0 <= 3 /\
  length [49875; 50005; 50135]%float = Z.to_nat 3 /\
  length [1; 1; 1]%float = length [49875; 50005; 50135]%float.
Proof.
  apply (all_conv_data_lengths wide_slit_sim ∅ 0.0625%float 3).
  vm_compute. reflexivity.
Defined.

Lemma fold_np_iadd_outcome {F : Type} `{Arith F} {B : Type}
    (f : B -> list F) (bands : list B) (acc : result (list F)) :
  (exists a, acc = Ok a) \/ raises_ValueError acc ->
  (exists c, fold_left (fun acc band => a ← acc; sim.np_iadd a (f band))
               bands acc = Ok c) \/
  raises_ValueError
    (fold_left (fun acc band => a ← acc; sim.np_iadd a (f band)) bands acc).
Proof.
  revert acc. induction bands as [|b bands IH]; intros acc Hacc;
    cbn [fold_left].
  - destruct Hacc as [[a ->]|Hacc]; [left; eauto | right; assumption].
  - apply IH. destruct Hacc as [[a ->]|[msg ->]]; cbn [mbind result_bind].
    + unfold sim.np_iadd. destruct (_ =? _)%nat; [left; eauto|].
      destruct (f b) as [|y [|? ?]]; [right | left | right]; eexists;
        reflexivity.
    + right. eexists. reflexivity.
Qed.

(** X15: The order in which [all_conv_data] fails.  Without bands it raises
    [ValueError]: there is nothing to concatenate.  With a first band that
    has no lines it raises [IndexError], whatever the bands' wavenumbers:
    the padding is taken from the first line of the first band.  With
    lines in the first band but no line wavenumber in any band it raises
    [ValueError]: an empty array has no minimum.  After that a negative
    number of samples raises [ValueError], and the only failure left is a
    band whose convolved intensities cannot be added to the grid, again a
    [ValueError]. *)
Theorem all_conv_data_failure_order {F : Type} `{Arith F} (self : sim.Sim F)
    (fwhm_selections : gmap string bool) (inst_broadening_wl : F)
    (granularity : Z) :
  match sim.bands self with
  | [] =>
      sim.all_conv_data self fwhm_selections inst_broadening_wl granularity
      = Raise (ValueError "need at least one array to concatenate")
  | band0 :: _ =>
      match sim.lines band0 with
      | [] =>
          sim.all_conv_data self fwhm_selections inst_broadening_wl
            granularity = Raise IndexError
      | _ :: _ =>
          match concat (map sim.wavenumbers_line (sim.bands self)) with
          | [] =>
              sim.all_conv_data self fwhm_selections inst_broadening_wl
                granularity
              = Raise (ValueError "zero-size array to reduction operation minimum which has no identity")
          | _ :: _ =>
              if granularity <? 0
              then raises_ValueError
                     (sim.all_conv_data self fwhm_selections
                        inst_broadening_wl granularity)
              else (exists out,
                      sim.all_conv_data self fwhm_selections
                        inst_broadening_wl granularity = Ok out) \/
                   raises_ValueError
                     (sim.all_conv_data self fwhm_selections
                        inst_broadening_wl granularity)
          end
      end
  end.
Proof.
  unfold sim.all_conv_data, sim.padding.
  destruct (sim.bands self) as [|band0 rest]; [reflexivity|].
  rewrite py_index_0.
  change (sim.np_concatenate (map sim.wavenumbers_line (band0 :: rest)))
    with (Ok (concat (map sim.wavenumbers_line (band0 :: rest)))).
  cbn [mbind result_bind].
  destruct (sim.lines band0) as [|line0 lines]; [reflexivity|].
  rewrite py_index_0. cbn [mbind result_bind].
  destruct (concat _) as [|x xs]; [reflexivity|].
  cbn [np_min np_max mbind result_bind].
  unfold linspace.
  destruct (granularity <? 0).
  - eexists. reflexivity.
  - cbn [mbind result_bind].
    set (grid := if 1 <? granularity then _ else _).
    destruct (fold_np_iadd_outcome
                (fun band => sim.intensities_conv band fwhm_selections
                               inst_broadening_wl grid)
                (band0 :: rest) (Ok (map (fun _ => of_Z 0) grid)))
      as [[c Hc]|[msg Hmsg]]; [left; eauto | |].
    + left. eexists. rewrite Hc. reflexivity.
    + right. exists msg. rewrite Hmsg. reflexivity.
Qed.

Section RealMinimum.
Local Open Scope R_scope.
Implicit Types (x y m : R) (xs : list R).

Lemma npy_minimum_R x y :
  npy_minimum x y = if Rle_dec x y then x else y.
Proof.
  unfold npy_minimum. cbn [fleb fisnan R_arith].
  destruct (Rle_dec x y); reflexivity.
Qed.

Lemma fold_npy_minimum_R xs x :
  fold_left npy_minimum xs x <= x /\
  (forall y, y ∈ xs -> fold_left npy_minimum xs x <= y).
Proof.
  revert x. induction xs as [|z xs IH]; intros x; cbn [fold_left].
  - split; [lra|]. intros y Hy. by apply elem_of_nil in Hy.
  - destruct (IH (npy_minimum x z)) as (Hle & Hlb).
    rewrite npy_minimum_R in Hle, Hlb |- *.
    split.
    + destruct (Rle_dec x z); lra.
    + intros y [->|Hy]%elem_of_cons; [|by apply Hlb].
      destruct (Rle_dec x z); lra.
Qed.

(** [numpy.min] of a non-empty array of reals bounds every entry from
    below. *)
Lemma np_min_R_spec xs m :
  np_min xs = Ok m -> forall y, y ∈ xs -> m <= y.
Proof.
  destruct xs as [|x xs]; [discriminate|]. cbn [np_min].
  intros [= <-]. destruct (fold_npy_minimum_R xs x) as (Hle & Hlb).
  intros y [->|Hy]%elem_of_cons; auto.
Qed.

Lemma padding_R_at_least_20 (self : sim.Sim R) (inst_broadening_wl pad : R) :
  sim.padding self inst_broadening_wl = Ok pad -> 20 <= pad.
Proof.
  unfold sim.padding.
  destruct (py_index (sim.bands self) 0) as [band0|]; [|discriminate].
  cbn [mbind result_bind].
  destruct (py_index (sim.lines band0) 0) as [line0|]; [|discriminate].
  cbn [mbind result_bind]. intros [= <-].
  rewrite py_max_R. cbn [fmul of_Z R_arith].
  destruct (Rlt_dec _ _); lra.
Qed.

End RealMinimum.

(** X14: Over the reals no line is clipped: whenever [all_conv_data] returns a
    grid of at least two samples, the grid starts at least 20 below and
    ends at least 20 above every line wavenumber of every band. *)
Theorem all_conv_data_margin (self : sim.Sim R)
    (fwhm_selections : gmap string bool) (inst_broadening_wl : R)
    (granularity : Z) (wavenumbers_conv intensities_conv : list R) :
  sim.all_conv_data self fwhm_selections inst_broadening_wl granularity
    = Ok (wavenumbers_conv, intensities_conv) ->
  2 <= granularity ->
  exists grid_min grid_max,
    head wavenumbers_conv = Some grid_min /\
    last wavenumbers_conv = Some grid_max /\
    Forall (fun band =>
              Forall (fun x => (grid_min + 20 <= x <= grid_max - 20)%R)
                     (sim.wavenumbers_line band))
           (sim.bands self).
Proof.
  intros Hrun Hnum.
  destruct (all_conv_data_grid_bounds _ _ _ _ _ _ Hrun Hnum)
    as (lo & hi & pad & Hlo & Hhi & Hpad & Hhead & Hlast).
  exists (lo - pad)%R, (hi + pad)%R. split; [assumption|].
  split; [assumption|].
  apply padding_R_at_least_20 in Hpad.
  apply np_max_R_spec in Hhi as [_ Hhi].
  assert (Hlo' := np_min_R_spec _ _ Hlo).
  apply Forall_forall. intros band Hband.
  apply Forall_forall. intros x Hx.
  assert (Hin : x ∈ concat (map sim.wavenumbers_line (sim.bands self))).
  { apply list_elem_of_In, in_concat. exists (sim.wavenumbers_line band).
    split; [apply in_map|]; by apply list_elem_of_In. }
  specialize (Hhi x Hin). specialize (Hlo' x Hin). lra.
Qed.

Lemma all_conv_data_slit_sim :
  sim.all_conv_data slit_sim ∅ (1 / 16)%R 2
  = Ok ([49875; 50135]%R, [1; 1]%R).
Proof.
  unfold sim.all_conv_data.
  change (sim.np_concatenate (map sim.wavenumbers_line (sim.bands slit_sim)))
    with (Ok [50000; 50010]%R).
  cbn [mbind result_bind].
  assert (Hpad : sim.padding slit_sim (1 / 16)%R = Ok 125%R).
  { unfold sim.padding. cbn [sim.bands slit_sim]. rewrite py_index_0.
    cbn [mbind result_bind sim.lines slit_band]. rewrite py_index_0.
    cbn [mbind result_bind sim.fwhm_instrument slit_line].
    rewrite py_max_R. cbn [fmul of_Z R_arith].
    destruct (Rlt_dec _ _); f_equal; lra. }
  rewrite Hpad. cbn [mbind result_bind].
  assert (Hmin : np_min [50000; 50010]%R = Ok 50000%R).
  { cbn [np_min fold_left]. rewrite npy_minimum_R.
    destruct (Rle_dec _ _); f_equal; lra. }
  assert (Hmax : np_max [50000; 50010]%R = Ok 50010%R).
  { cbn [np_max fold_left]. rewrite npy_maximum_R.
    destruct (Rle_dec _ _); f_equal; lra. }
  rewrite Hmin, Hmax. cbn [mbind result_bind].
  assert (Hgrid : linspace (fsub 50000%R 125%R) (fadd 50010%R 125%R) 2
                  = Ok [49875; 50135]%R).
  { unfold linspace.
    change (2 <? 0) with false. change (1 <? 2) with true.
    change (0 <? 2 - 1) with true. change (Z.to_nat 2) with 2%nat.
    change (2 - 1) with 1.
    cbn [seq map removelast app Z.of_nat].
    cbn [fsub fadd fmul fdiv of_Z R_arith].
    change (Z.of_nat 0) with 0.
    f_equal. f_equal; [|f_equal; lra].
    destruct (feqb _ _); lra. }
  rewrite Hgrid. cbn [mbind result_bind map fold_left sim.bands slit_sim
                      sim.intensities_conv slit_band sim.np_iadd length
                      Nat.eqb zip_with].
  cbn [fadd of_Z R_arith]. repeat f_equal; lra.
Qed.

Lemma all_conv_data_margin_witness :
  exists grid_min grid_max,
    head [49875; 50135]%R = Some grid_min /\
    last [49875; 50135]%R = Some grid_max /\
    Forall (fun band =>
              Forall (fun x => (grid_min + 20 <= x <= grid_max - 20)%R)
                     (sim.wavenumbers_line band))
           (sim.bands slit_sim).
Proof.
  apply (all_conv_data_margin slit_sim ∅ (1 / 16)%R 2 _ [1; 1]%R).
  - exact all_conv_data_slit_sim.
  - lia.
Defined.

(** ** The line data of [Sim.all_line_data] *)

Lemma fold_all_line_data {F : Type} (intensities_line : sim.Band F -> list F)
    (bands : list (sim.Band F)) (acc : list F * list F) :
  fold_left (fun acc band =>
               (acc.1 ++ sim.wavenumbers_line band,
                acc.2 ++ intensities_line band)) bands acc
  = (acc.1 ++ concat (map sim.wavenumbers_line bands),
     acc.2 ++ concat (map intensities_line bands)).
Proof.
  revert acc. induction bands as [|b bands IH]; intros [w i];
    cbn [fold_left map concat fst snd].
  - by rewrite !app_nil_r.
  - rewrite IH. cbn [fst snd]. by rewrite <- !app_assoc.
Qed.

Lemma zip_concat {A B : Type} (f : A -> list B) (g : A -> list B)
    (l : list A) :
  Forall (fun x => length (f x) = length (g x)) l ->
  zip (concat (map f l)) (concat (map g l))
  = concat (map (fun x => zip (f x) (g x)) l).
Proof.
  induction 1 as [|x l Hx _ IH]; [reflexivity|].
  cbn [map concat]. rewrite zip_with_app by assumption.
  by rewrite IH.
Qed.

(** X16: [all_line_data] never fails, also for a simulation without bands, and
    keeps every line wavenumber beside its own intensity: when each band
    returns as many intensities as wavenumbers, the two arrays are as long
    as each other and, read side by side, are the bands' own pairs of
    wavenumber and intensity, band after band. *)
Theorem all_line_data_aligned {F : Type}
    (intensities_line : sim.Band F -> list F) (self : sim.Sim F) :
  Forall (fun band => length (sim.wavenumbers_line band)
                      = length (intensities_line band)) (sim.bands self) ->
  (all_line_data intensities_line self).1
    = concat (map sim.wavenumbers_line (sim.bands self)) /\
  length (all_line_data intensities_line self).1
    = length (all_line_data intensities_line self).2 /\
  zip (all_line_data intensities_line self).1
      (all_line_data intensities_line self).2
    = concat (map (fun band => zip (sim.wavenumbers_line band)
                                   (intensities_line band))
                  (sim.bands self)).
Proof.
  intros Hlen. unfold all_line_data. rewrite fold_all_line_data.
  cbn [fst snd app]. split; [reflexivity|]. split.
  - induction Hlen as [|b bs Hb _ IH]; [reflexivity|].
    cbn [map concat]. rewrite !length_app. congruence.
  - by apply zip_concat.
Qed.

Lemma all_line_data_aligned_witness :
  (all_line_data line_count_intensities
     (sim.mkSim [three_line_band; two_wavenumber_band])).1
    = concat (map sim.wavenumbers_line
                  (sim.bands (sim.mkSim [three_line_band;
                                         two_wavenumber_band]))) /\
  length (all_line_data line_count_intensities
            (sim.mkSim [three_line_band; two_wavenumber_band])).1
    = length (all_line_data line_count_intensities
                (sim.mkSim [three_line_band; two_wavenumber_band])).2 /\
  zip (all_line_data line_count_intensities
         (sim.mkSim [three_line_band; two_wavenumber_band])).1
      (all_line_data line_count_intensities
         (sim.mkSim [three_line_band; two_wavenumber_band])).2
    = concat (map (fun band => zip (sim.wavenumbers_line band)
                                   (line_count_intensities band))
                  (sim.bands (sim.mkSim [three_line_band;
                                         two_wavenumber_band]))).
Proof.
  apply (all_line_data_aligned line_count_intensities
           (sim.mkSim [three_line_band; two_wavenumber_band])).
  repeat constructor.
Defined.

(** ** The band ranges of [GUI.add_simulation] *)

Lemma py_range_succ (a : Z) : py_range a (a + 1) = [a].
Proof.
  unfold py_range. replace (a + 1 - a) with 1 by lia.
  rewrite seqZ_cons by lia. by rewrite seqZ_nil by lia.
Qed.

Lemma elem_of_py_range (a b k : Z) : k ∈ py_range a b <-> a <= k < b.
Proof. unfold py_range. rewrite elem_of_seqZ. lia. Qed.

Lemma length_py_range (a b : Z) : length (py_range a b) = Z.to_nat (b - a).
Proof. apply length_seqZ. Qed.

Lemma list_bind_singleton {A B : Type} (f : A -> list B) (x : A) :
  [x] ≫= f = f x.
Proof. cbn. apply app_nil_r. Qed.

Lemma list_bind_ret_pair_l {A B : Type} (x : A) (l : list B) :
  (y ← l; [(x, y)]) = map (pair x) l.
Proof. induction l as [|y l IH]; [reflexivity|]. cbn in *. by rewrite IH. Qed.

(** The three special cases of [add_simulation] are instances of the
    general one. *)
Lemma add_simulation_bands_grid (v_up_min v_up_max v_lo_min v_lo_max : Z) :
  add_simulation_bands v_up_min v_up_max v_lo_min v_lo_max
  = if (v_up_min >? v_up_max) || (v_lo_min >? v_lo_max) then None
    else Some (band_grid v_up_min v_up_max v_lo_min v_lo_max).
Proof.
  unfold add_simulation_bands, band_grid.
  destruct (_ || _); [reflexivity|]. f_equal.
  destruct (Z.eqb_spec v_up_min v_up_max) as [<-|Hup],
           (Z.eqb_spec v_lo_min v_lo_max) as [<-|Hlo]; cbn [andb].
  - by rewrite !py_range_succ, !list_bind_singleton.
  - by rewrite py_range_succ, list_bind_singleton.
  - rewrite py_range_succ.
    apply list_bind_ext; [|reflexivity].
    intros v_up. by rewrite list_bind_singleton.
  - reflexivity.
Qed.

Lemma length_band_grid (l1 l2 : list Z) :
  length (v_up ← l1; v_lo ← l2; [(v_up, v_lo)])
  = (length l1 * length l2)%nat.
Proof.
  induction l1 as [|x l1 IH]; [reflexivity|].
  change (length ((y ← l2; [(x, y)])
                  ++ (v_up ← l1; v_lo ← l2; [(v_up, v_lo)]))
          = (length (x :: l1) * length l2)%nat).
  rewrite length_app, IH, list_bind_ret_pair_l, length_map.
  cbn [length]. lia.
Qed.

(** X17: The bands [add_simulation] generates from the range spin boxes: when
    it generates any, each minimum is at most its maximum and the bands
    are exactly the pairs of the two ranges, both ends included, each pair
    once. *)
Theorem add_simulation_bands_spec
    (v_up_min v_up_max v_lo_min v_lo_max : Z) (bands : list (Z * Z)) :
  add_simulation_bands v_up_min v_up_max v_lo_min v_lo_max = Some bands ->
  v_up_min <= v_up_max /\ v_lo_min <= v_lo_max /\
  bands = band_grid v_up_min v_up_max v_lo_min v_lo_max /\
  NoDup bands /\
  length bands
    = Z.to_nat ((v_up_max - v_up_min + 1) * (v_lo_max - v_lo_min + 1)) /\
  forall v_up v_lo,
    (v_up, v_lo) ∈ bands <->
    v_up_min <= v_up <= v_up_max /\ v_lo_min <= v_lo <= v_lo_max.
Proof.
  rewrite add_simulation_bands_grid.
  destruct (Z.gtb_spec v_up_min v_up_max); [discriminate|].
  destruct (Z.gtb_spec v_lo_min v_lo_max); [discriminate|].
  cbn [orb]. intros [= <-].
  split; [assumption|]. split; [assumption|]. split; [reflexivity|].
  unfold band_grid. split; [|split].
  - apply NoDup_bind.
    + intros x1 x2 [u l] _ _ H1 H2.
      apply list_elem_of_bind in H1 as (y1 & H1 & _).
      apply list_elem_of_bind in H2 as (y2 & H2 & _).
      apply list_elem_of_singleton in H1, H2. congruence.
    + intros x _. rewrite list_bind_ret_pair_l.
      apply NoDup_fmap_2; [|apply NoDup_seqZ].
      intros y1 y2. congruence.
    + apply NoDup_seqZ.
  - rewrite length_band_grid, !length_py_range, Z2Nat.inj_mul by lia.
    f_equal; f_equal; lia.
  - intros v_up v_lo. rewrite list_elem_of_bind. split.
    + intros (u & Hin & Hu). apply list_elem_of_bind in Hin as (l & Hin & Hl).
      apply list_elem_of_singleton in Hin. injection Hin as -> ->.
      apply elem_of_py_range in Hu, Hl. lia.
    + intros [Hu Hl]. exists v_up. split; [|apply elem_of_py_range; lia].
      apply list_elem_of_bind. exists v_lo.
      split; [by apply list_elem_of_singleton | apply elem_of_py_range; lia].
Qed.

Lemma add_simulation_bands_spec_witness :
  0 <= 1 /\ 2 <= 2 /\
  [(0, 2); (1, 2)] = band_grid 0 1 2 2 /\
  NoDup [(0, 2); (1, 2)] /\
  length [(0, 2); (1, 2)] = Z.to_nat ((1 - 0 + 1) * (2 - 2 + 1)) /\
  forall v_up v_lo,
    (v_up, v_lo) ∈ [(0, 2); (1, 2)] <->
    0 <= v_up <= 1 /\ 2 <= v_lo <= 2.
Proof.
  apply (add_simulation_bands_spec 0 1 2 2). reflexivity.
Defined.

(** ** The vibrational partition function of [sim.py] *)

Section VibPartition.
Local Open Scope R_scope.
Variables PLANC LIGHT BOLTZ : R.
Variable state : terms.State R.
Variable temp_vib : R.

Lemma vib_fold_raise (vs : list Z) (e : exn_float) :
  fold_left (vib_partition_step PLANC LIGHT BOLTZ state temp_vib) vs
    (FRaise e) = FRaise e.
Proof. induction vs as [|v vs IH]; [reflexivity | exact IH]. Qed.

Lemma vib_fold_grows (g0 : R) (gs : list R) (vs : list Z) (a : R) :
  terms.constants state !! "G" = Some (g0 :: gs) ->
  BOLTZ * temp_vib <> 0 ->
  Forall (fun v => (0 <= v < Z.of_nat (length (g0 :: gs)))%Z) vs ->
  exists q,
    fold_left (vib_partition_step PLANC LIGHT BOLTZ state temp_vib) vs
      (FOk a) = FOk q /\ a <= q.
Proof.
  intros HG Hd Hvs. revert a.
  induction Hvs as [|v vs Hv _ IH]; intros a; cbn [fold_left].
  - exists a. split; [reflexivity | lra].
  - destruct (py_index_in_range_total (g0 :: gs) v Hv) as [g Hg].
    assert (Hstep : exists e, vib_partition_step PLANC LIGHT BOLTZ state temp_vib
                        (FOk a) v = FOk (a + e) /\ 0 < e).
    { unfold vib_partition_step, terms.vibrational_term, terms.constant_at, py_getitem.
      rewrite HG. cbn [mbind result_bind fresult_bind lift_result].
      rewrite Hg, py_index_0. cbn [lift_result mbind fresult_bind].
      unfold py_truediv. destruct (Req_dec_T _ _); [contradiction|].
      cbn [mbind fresult_bind].
      eexists. split; [reflexivity | apply exp_pos]. }
    destruct Hstep as (e & -> & He).
    destruct (IH (a + e)) as (q & -> & Hq).
    exists q. split; [reflexivity | lra].
Qed.

Lemma vib_body_first (g0 : R) (gs : list R) (a : R) :
  terms.constants state !! "G" = Some (g0 :: gs) ->
  vib_partition_step PLANC LIGHT BOLTZ state temp_vib (FOk a) 0
  = if Req_dec_T (BOLTZ * temp_vib) 0 then FRaise ZeroDivisionError
    else FOk (a + 1).
Proof.
  intros HG.
  unfold vib_partition_step, terms.vibrational_term, terms.constant_at, py_getitem.
  rewrite HG. cbn [mbind result_bind fresult_bind lift_result].
  rewrite py_index_0. cbn [lift_result mbind fresult_bind].
  unfold py_truediv. destruct (Req_dec_T _ _); [reflexivity|].
  cbn [mbind fresult_bind].
  replace (- (g0 - g0) * PLANC * LIGHT / (BOLTZ * temp_vib)) with 0
    by (unfold Rdiv; ring).
  by rewrite exp_0.
Qed.

End VibPartition.

(** X18: The three ways the vibrational partition function ends.  Without a
    table ["G"] in the state of the simulation's direction it raises
    [KeyError]; with an empty table it returns 0 and divides nothing; with
    a table of at least one level it raises [ZeroDivisionError] when
    [BOLTZ * temp_vib] is zero, and over the reals returns a sum of at
    least 1 otherwise, the level 0 contributing exactly 1. *)
Theorem get_vib_partition_fn_cases (PLANC LIGHT BOLTZ : R)
    (sim_type : sim_partition.SimType) (state_up state_lo : terms.State R)
    (temp_vib : R) :
  match terms.constants
          match sim_type with
          | sim_partition.EMISSION => state_up
          | sim_partition.ABSORPTION => state_lo
          end !! "G" with
  | None =>
      sim_partition.get_vib_partition_fn PLANC LIGHT BOLTZ sim_type
        state_up state_lo temp_vib = FRaise (Exn (KeyError "G"))
  | Some [] =>
      sim_partition.get_vib_partition_fn PLANC LIGHT BOLTZ sim_type
        state_up state_lo temp_vib = FOk 0%R
  | Some (_ :: _) =>
      ((BOLTZ * temp_vib)%R = 0%R /\
       sim_partition.get_vib_partition_fn PLANC LIGHT BOLTZ sim_type
         state_up state_lo temp_vib = FRaise ZeroDivisionError) \/
      ((BOLTZ * temp_vib)%R <> 0%R /\
       exists q_v,
         sim_partition.get_vib_partition_fn PLANC LIGHT BOLTZ sim_type
           state_up state_lo temp_vib = FOk q_v /\ (1 <= q_v)%R)
  end.
Proof.
  unfold sim_partition.get_vib_partition_fn.
  set (state := match sim_type with
                | sim_partition.EMISSION => state_up
                | sim_partition.ABSORPTION => state_lo
                end).
  unfold py_getitem.
  destruct (terms.constants state !! "G") as [[|g0 gs]|] eqn:HG;
    cbn [lift_result mbind fresult_bind]; [reflexivity| |reflexivity].
  replace (Z.of_nat (length (g0 :: gs))) with (Z.succ (Z.of_nat (length gs)))
    by (cbn [length]; lia).
  rewrite seqZ_cons by lia.
  change (fold_left _ ?l ?a)
    with (fold_left (vib_partition_step PLANC LIGHT BOLTZ state temp_vib)
            l a).
  cbn [fold_left].
  rewrite (vib_body_first PLANC LIGHT BOLTZ state temp_vib g0 gs 0%R HG).
  destruct (Req_dec_T (BOLTZ * temp_vib) 0) as [Hd|Hd].
  - left. split; [assumption|]. apply vib_fold_raise.
  - right. split; [assumption|].
    destruct (vib_fold_grows PLANC LIGHT BOLTZ state temp_vib g0 gs
                (seqZ (Z.succ 0) (Z.pred (Z.succ (Z.of_nat (length gs)))))
                (0 + 1)%R HG Hd) as (q & Hq & Hle).
    + apply Forall_forall. intros v Hv. apply elem_of_seqZ in Hv.
      cbn [length]. lia.
    + exists q. split; [exact Hq | lra].
Qed.

(** ** The laser pulse of [lif.py] *)

Section Pulse.
Local Open Scope R_scope.

Lemma laser_intensity_Ok (t : R) (lp : lif.LaserParams) :
  lif.pulse_width lp <> 0 ->
  lif.laser_intensity t lp
  = FOk (lif.fluence lp / lif.pulse_width lp * sqrt (4 * ln 2 / PI)
         * exp (IZR (-4) * ln 2
                * ((t - lif.pulse_center lp) / lif.pulse_width lp) ^ 2)).
Proof.
  intros Hw. unfold lif.laser_intensity, py_truediv.
  destruct (Req_dec_T _ _); [contradiction | reflexivity].
Qed.

Lemma ln_2_pos : 0 < ln 2.
Proof. rewrite <- ln_1. apply ln_increasing; lra. Qed.

Lemma pulse_prefactor_pos : 0 < sqrt (4 * ln 2 / PI).
Proof.
  apply sqrt_lt_R0. apply Rdiv_lt_0_compat; [|apply PI_RGT_0].
  assert (H := ln_2_pos). lra.
Qed.

End Pulse.

(** X19: A pulse of positive width and fluence, at a time whose distance
    from the pulse centre in pulse widths has a square that fits: the
    intensity is not negative, nowhere greater than at the pulse centre,
    where it is [fluence / pulse_width * sqrt(4 ln 2 / pi)], and the same
    at equal distances before and after the centre. *)
Theorem laser_intensity_pulse (t : R) (laser_params : lif.LaserParams) :
  (0 < lif.pulse_width laser_params)%R ->
  (0 < lif.fluence laser_params)%R ->
  square_fits_R ((t - lif.pulse_center laser_params)
                 / lif.pulse_width laser_params) ->
  exists i i_peak,
    lif.laser_intensity t laser_params = FOk i /\
    lif.laser_intensity (lif.pulse_center laser_params) laser_params
      = FOk i_peak /\
    lif.laser_intensity (2 * lif.pulse_center laser_params - t)%R
      laser_params = FOk i /\
    i_peak = (lif.fluence laser_params / lif.pulse_width laser_params
              * sqrt (4 * ln 2 / PI))%R /\
    (0 <= i <= i_peak)%R.
Proof.
  intros Hw Hf _.
  assert (Hw' : lif.pulse_width laser_params <> 0%R) by lra.
  rewrite !laser_intensity_Ok by assumption.
  set (c := lif.pulse_center laser_params).
  set (w := lif.pulse_width laser_params) in *.
  set (a := (lif.fluence laser_params / w * sqrt (4 * ln 2 / PI))%R).
  assert (Ha : (0 < a)%R).
  { subst a. apply Rmult_lt_0_compat; [|apply pulse_prefactor_pos].
    apply Rdiv_lt_0_compat; assumption. }
  eexists _, _. split; [reflexivity|]. split; [reflexivity|].
  split; [|split].
  - do 3 f_equal. unfold Rdiv. ring.
  - replace ((c - c) / w)%R with 0%R by (unfold Rdiv; ring).
    rewrite pow_i by lia. rewrite Rmult_0_r, exp_0. ring.
  - split.
    + apply Rlt_le, Rmult_lt_0_compat; [assumption | apply exp_pos].
    + replace ((c - c) / w)%R with 0%R by (unfold Rdiv; ring).
      rewrite (pow_i 2) by lia. rewrite Rmult_0_r.
      apply Rmult_le_compat_l; [lra|].
      destruct (Req_dec (((t - c) / w) ^ 2) 0) as [->|Hne].
      * rewrite Rmult_0_r. lra.
      * apply Rlt_le, exp_increasing.
        assert (H2 := ln_2_pos).
        assert (Hsq : (0 < ((t - c) / w) ^ 2)%R).
        { assert (0 <= ((t - c) / w) ^ 2)%R by apply pow2_ge_0. lra. }
        assert (0 < ln 2 * ((t - c) / w) ^ 2)%R
          by (apply Rmult_lt_0_compat; assumption).
        lra.
Qed.

Lemma laser_intensity_pulse_witness :
  exists i i_peak,
    lif.laser_intensity 4 unit_pulse = FOk i /\
    lif.laser_intensity (lif.pulse_center unit_pulse) unit_pulse
      = FOk i_peak /\
    lif.laser_intensity (2 * lif.pulse_center unit_pulse - 4)%R
      unit_pulse = FOk i /\
    i_peak = (lif.fluence unit_pulse / lif.pulse_width unit_pulse
              * sqrt (4 * ln 2 / PI))%R /\
    (0 <= i <= i_peak)%R.
Proof.
  apply (laser_intensity_pulse 4 unit_pulse).
  - cbn. lra.
  - cbn. lra.
  - unfold square_fits_R. cbn [unit_pulse lif.pulse_center lif.pulse_width].
    apply Rlt_le_trans with 1%R.
    + apply Rabs_def1; lra.
    + apply pow_R1_Rle. lra.
Defined.

(** A pulse of zero width has no intensity: the first division raises
    [ZeroDivisionError], whatever the time and the fluence. *)
Example laser_intensity_zero_width (t pulse_center fluence : R) :
  lif.laser_intensity t (lif.mkLaserParams pulse_center 0 fluence)
  = FRaise ZeroDivisionError.
Proof.
  unfold lif.laser_intensity, py_truediv. cbn [lif.pulse_width].
  destruct (Req_dec_T 0 0); [reflexivity | contradiction].
Qed.

(** ** The electronic Boltzmann fraction of [sim.py] *)

Section ElectronicFraction.
Local Open Scope R_scope.
Variables PLANC LIGHT BOLTZ temp_elc : R.
Hypothesis Hdiv : BOLTZ * temp_elc <> 0.

Lemma fold_elc_partition (l : list (R * Z)) (a : R) :
  fold_left (elc_partition_step PLANC LIGHT BOLTZ temp_elc) l (FOk a)
  = FOk (a + fold_right Rplus 0
               (map (elc_weight PLANC LIGHT BOLTZ temp_elc) l)).
Proof.
  revert a. induction l as [|eg l IH]; intros a; cbn [fold_left map fold_right].
  - f_equal. lra.
  - unfold elc_partition_step at 2. cbn [mbind fresult_bind].
    unfold py_truediv. destruct (Req_dec_T _ _); [contradiction|].
    cbn [mbind fresult_bind]. rewrite IH. f_equal. unfold elc_weight. lra.
Qed.

Lemma elc_weight_pos (eg : R * Z) :
  (0 < eg.2)%Z -> 0 < elc_weight PLANC LIGHT BOLTZ temp_elc eg.
Proof.
  intros Hg. unfold elc_weight.
  apply Rmult_lt_0_compat; [by apply IZR_lt | apply exp_pos].
Qed.

Lemma elc_weight_le_sum (l : list (R * Z)) (eg : R * Z) :
  Forall (fun eg' => (0 < eg'.2)%Z) l -> eg ∈ l ->
  0 < elc_weight PLANC LIGHT BOLTZ temp_elc eg
    <= fold_right Rplus 0 (map (elc_weight PLANC LIGHT BOLTZ temp_elc) l).
Proof.
  intros Hall. induction Hall as [|eg' l Hg Hall IH]; intros Hin.
  - by apply elem_of_nil in Hin.
  - assert (Hnn : 0 <= fold_right Rplus 0
                         (map (elc_weight PLANC LIGHT BOLTZ temp_elc) l)).
    { clear -Hall. induction Hall as [|x l Hx _ IHl]; cbn [map fold_right];
        [lra|].
      assert (Hw := elc_weight_pos x Hx). lra. }
    assert (Hw := elc_weight_pos eg' Hg).
    cbn [map fold_right].
    apply elem_of_cons in Hin as [->|Hin]; [lra|].
    specialize (IH Hin). lra.
Qed.

End ElectronicFraction.

Lemma odict_getitem_aligned {A B} (d1 : list (string * A))
    (d2 : list (string * B)) (k : string) (v1 : A) :
  map fst d1 = map fst d2 ->
  odict_getitem d1 k = Ok v1 ->
  exists v2, odict_getitem d2 k = Ok v2 /\
             (v1, v2) ∈ zip (odict_values d1) (odict_values d2).
Proof.
  revert d2. induction d1 as [|[k1 a] d1 IH]; intros [|[k2 b] d2] Hkeys;
    try discriminate; cbn [odict_getitem].
  cbn [map fst] in Hkeys. injection Hkeys as <- Hkeys.
  unfold odict_values. cbn [map snd zip_with].
  destruct (String.eqb k1 k).
  - intros [= <-]. exists b. split; [reflexivity | left].
  - intros Hv1. destruct (IH d2 Hkeys Hv1) as (v2 & Hv2 & Hin).
    exists v2. split; [assumption | by right].
Qed.

(** X20: Over the reals the electronic Boltzmann fraction is a fraction.
    When the two tables of the molecule list the same states in the same
    order, every degeneracy is positive, no energy is negative and one
    state has the energy 0, the state of the simulation's direction is one
    of the listed states, and [PLANC], [LIGHT] and [BOLTZ * temp_elc] are
    positive, the electronic partition function is at least 1 (the state
    of energy 0 contributes its degeneracy) and the Boltzmann fraction
    computed with it lies between 0 and 1. *)
Theorem get_elc_boltz_frac_fraction (PLANC LIGHT BOLTZ : R)
    (ELECTRONIC_ENERGIES : gmap string (list (string * R)))
    (ELECTRONIC_DEGENERACIES : gmap string (list (string * Z)))
    (sim_type : sim_partition.SimType)
    (state_up_name state_lo_name molecule_name : string) (temp_elc : R)
    (energies_of : list (string * R)) (degeneracies_of : list (string * Z))
    (energy : R) :
  ELECTRONIC_ENERGIES !! molecule_name = Some energies_of ->
  ELECTRONIC_DEGENERACIES !! molecule_name = Some degeneracies_of ->
  map fst energies_of = map fst degeneracies_of ->
  Forall (fun state => 0 < state.2) degeneracies_of ->
  Forall (fun state => (0 <= state.2)%R) energies_of ->
  (exists ground, odict_getitem energies_of ground = Ok 0%R) ->
  odict_getitem energies_of
    match sim_type with
    | sim_partition.EMISSION => state_up_name
    | sim_partition.ABSORPTION => state_lo_name
    end = Ok energy ->
  (0 < PLANC)%R -> (0 < LIGHT)%R -> (0 < BOLTZ * temp_elc)%R ->
  exists elc_part elc_boltz_frac,
    sim_electronic.get_elc_partition_fn PLANC LIGHT BOLTZ
      ELECTRONIC_ENERGIES ELECTRONIC_DEGENERACIES molecule_name temp_elc
    = FOk elc_part /\
    sim_electronic.get_elc_boltz_frac PLANC LIGHT BOLTZ
      ELECTRONIC_ENERGIES ELECTRONIC_DEGENERACIES sim_type
      state_up_name state_lo_name molecule_name temp_elc elc_part
    = FOk elc_boltz_frac /\
    (1 <= elc_part)%R /\ (0 <= elc_boltz_frac <= 1)%R.
Proof.
  intros HE HD Hkeys Hpos _ [ground Hground] Hstate _ _ Hdiv'.
  assert (Hdiv : (BOLTZ * temp_elc)%R <> 0%R) by lra.
  destruct (odict_getitem_aligned _ _ _ _ Hkeys Hground)
    as (g0 & Hg0 & Hin0).
  unfold sim_electronic.get_elc_partition_fn,
    sim_electronic.get_elc_boltz_frac, py_getitem.
  rewrite HE, HD. cbn [lift_result mbind fresult_bind].
  rewrite Hstate. cbn [lift_result mbind fresult_bind].
  destruct (odict_getitem_aligned _ _ _ _ Hkeys Hstate)
    as (degeneracy & -> & Hin).
  cbn [lift_result mbind fresult_bind].
  unfold py_truediv at 2. destruct (Req_dec_T _ _); [contradiction|].
  cbn [mbind fresult_bind].
  change (fold_left _ ?l ?a)
    with (fold_left (elc_partition_step PLANC LIGHT BOLTZ temp_elc) l a).
  rewrite fold_elc_partition by assumption.
  set (l := zip (odict_values energies_of) (odict_values degeneracies_of))
    in *.
  assert (Hall : Forall (fun eg : R * Z => 0 < eg.2) l).
  { subst l. unfold odict_values. clear -Hpos Hkeys.
    revert energies_of Hkeys.
    induction Hpos as [|[k g] d Hg _ IH]; intros [|[k' e] et] Hkeys;
      try discriminate; cbn [map snd zip_with]; constructor.
    - exact Hg.
    - apply IH. cbn [map] in Hkeys. by injection Hkeys. }
  destruct (elc_weight_le_sum PLANC LIGHT BOLTZ temp_elc l
              (energy, degeneracy) Hall Hin) as [Hw Hle].
  destruct (elc_weight_le_sum PLANC LIGHT BOLTZ temp_elc l
              (0%R, g0) Hall Hin0) as [_ Hle0].
  assert (Hg0' : (1 <= IZR g0)%R).
  { rewrite Forall_forall in Hall. specialize (Hall _ Hin0).
    cbn [snd] in Hall. apply IZR_le. lia. }
  set (q := fold_right Rplus 0%R
              (map (elc_weight PLANC LIGHT BOLTZ temp_elc) l)) in *.
  unfold elc_weight in Hw, Hle, Hle0. cbn [fst snd] in Hw, Hle, Hle0.
  replace (- 0 * PLANC * LIGHT / (BOLTZ * temp_elc))%R with 0%R in Hle0
    by (unfold Rdiv; ring).
  rewrite exp_0, Rmult_1_r in Hle0.
  eexists _, _. split; [reflexivity|]. split; [reflexivity|].
  assert (Hq : (0 < 0 + q)%R) by lra.
  split; [lra|]. split.
  - apply Rlt_le, Rdiv_lt_0_compat; assumption.
  - apply Rmult_le_reg_r with (0 + q)%R; [assumption|].
    unfold Rdiv. rewrite Rmult_assoc, Rinv_l by lra. lra.
Qed.

Lemma get_elc_boltz_frac_fraction_witness :
  exists elc_part elc_boltz_frac,
    sim_electronic.get_elc_partition_fn 1 1 1
      example_energies example_degeneracies "O2" 300
    = FOk elc_part /\
    sim_electronic.get_elc_boltz_frac 1 1 1
      example_energies example_degeneracies sim_partition.ABSORPTION
      "B3Su-" "X3Sg-" "O2" 300 elc_part
    = FOk elc_boltz_frac /\
    (1 <= elc_part)%R /\ (0 <= elc_boltz_frac <= 1)%R.
Proof.
  apply (get_elc_boltz_frac_fraction 1 1 1
           example_energies example_degeneracies sim_partition.ABSORPTION
           "B3Su-" "X3Sg-" "O2" 300
           [("X3Sg-", 0%R); ("B3Su-", 49793%R)]
           [("X3Sg-", 3); ("B3Su-", 3)] 0%R).
  - reflexivity.
  - reflexivity.
  - reflexivity.
  - repeat constructor.
  - repeat constructor; cbn; lra.
  - exists "X3Sg-". reflexivity.
  - reflexivity.
  - lra.
  - lra.
  - lra.
Defined.
